(** * Formula and store model of the [sheet] spreadsheet

    Shallow embedding of [src/src/types/sheet.ts] (formula evaluation,
    range and reference parsing), of the zustand store in
    [src/src/components/Toolbar.tsx] (history, rows and columns,
    clipboard) and of the recalculation effect of
    [src/src/components/Cell.tsx].

    Text is a Rocq [string]: one [ascii] per UTF-16 code unit, so the
    model covers text whose code units are below 256 (Latin-1).  JS
    objects keyed by cell id are association lists kept in insertion
    order: every key the store writes is a cell id starting with a
    letter, and for such keys insertion order is JS property order. *)

From Stdlib Require Import String Ascii ZArith NArith List Bool Lia.
Import ListNotations.
Open Scope string_scope.
Open Scope nat_scope.

(** ** JS string primitives *)

Definition code (c : ascii) : nat := nat_of_ascii c.

Definition chars (s : string) : list ascii := list_ascii_of_string s.
Definition of_chars (l : list ascii) : string := string_of_list_ascii l.

(** [String.prototype.startsWith]. *)
Definition startsWith (s p : string) : bool := String.prefix p s.

(** [s.substring(1)] *)
Definition substring1 (s : string) : string := substring 1 (String.length s - 1) s.

(** [s.slice(a, -1)]: end index [length - 1], empty when [a] is past it. *)
Definition slice_to_last (s : string) (a : nat) : string :=
  let e := String.length s - 1 in
  if a <? e then substring a (e - a) s else "".

(** JS [WhiteSpace] and [LineTerminator] code units below 256. *)
Definition is_ws (c : ascii) : bool :=
  match code c with
  | 9 | 10 | 11 | 12 | 13 | 32 | 160 => true
  | _ => false
  end.

Fixpoint drop_ws (l : list ascii) : list ascii :=
  match l with
  | c :: t => if is_ws c then drop_ws t else l
  | [] => []
  end.

(** [String.prototype.trim]. *)
Definition trim (s : string) : string :=
  of_chars (rev (drop_ws (rev (drop_ws (chars s))))).

(** [String.prototype.toLowerCase] on Latin-1 code units. *)
Definition lower_char (c : ascii) : ascii :=
  let n := code c in
  if ((65 <=? n) && (n <=? 90)) || ((192 <=? n) && (n <=? 222) && negb (n =? 215))
  then ascii_of_nat (n + 32) else c.

Definition toLowerCase (s : string) : string := of_chars (map lower_char (chars s)).

(** [String.prototype.toUpperCase] on Latin-1 code units: [ß] becomes
    ["SS"]; [µ] and [ÿ] map outside Latin-1 and are not modelled
    ([None]). *)
Fixpoint upper_chars (l : list ascii) : option (list ascii) :=
  match l with
  | [] => Some []
  | c :: t =>
      match upper_chars t with
      | None => None
      | Some t' =>
          let n := code c in
          if (n =? 181) || (n =? 255) then None
          else if n =? 223 then Some ("S"%char :: "S"%char :: t')
          else if ((97 <=? n) && (n <=? 122))
                  || ((224 <=? n) && (n <=? 254) && negb (n =? 247))
          then Some (ascii_of_nat (n - 32) :: t')
          else Some (c :: t')
      end
  end.

Definition toUpperCase (s : string) : option string :=
  option_map of_chars (upper_chars (chars s)).

(** [String.prototype.replace(/\$/g, '')]. *)
Definition remove_dollars (s : string) : string :=
  of_chars (filter (fun c => negb (Ascii.eqb c "$"%char)) (chars s)).

(** [String.prototype.split(sep)] for a one-character separator. *)
Fixpoint split_chars (sep : ascii) (l : list ascii) : list (list ascii) :=
  match l with
  | [] => [[]]
  | c :: t =>
      if Ascii.eqb c sep then [] :: split_chars sep t
      else match split_chars sep t with
           | w :: ws => (c :: w) :: ws
           | [] => [[c]]
           end
  end.

Definition split (sep : ascii) (s : string) : list string :=
  map of_chars (split_chars sep (chars s)).

(** [array.join(sep)]. *)
Fixpoint join (sep : string) (l : list string) : string :=
  match l with
  | [] => ""
  | [x] => x
  | x :: t => x ++ sep ++ join sep t
  end.

(** ** Decimal digits *)

Definition is_digit (c : ascii) : bool := (48 <=? code c) && (code c <=? 57).

Definition digit_val (c : ascii) : Z := Z.of_nat (code c - 48).

Definition digits_value (l : list ascii) : Z :=
  fold_left (fun acc c => (acc * 10 + digit_val c)%Z) l 0%Z.

Definition digit_char (d : N) : ascii := ascii_of_N (48 + d).

Fixpoint print_N_aux (fuel : nat) (n : N) (acc : list ascii) : list ascii :=
  match fuel with
  | O => acc
  | S f =>
      let acc' := digit_char (n mod 10) :: acc in
      if (n <? 10)%N then acc' else print_N_aux f (n / 10) acc'
  end.

(** Decimal text of a natural number, as [Number.prototype.toString]
    and template literals print integers below [1e21]. *)
Definition print_N (n : N) : string := of_chars (print_N_aux (S (N.size_nat n)) n []).

Definition print_Z (z : Z) : string :=
  match z with
  | Zneg p => "-" ++ print_N (Npos p)
  | _ => print_N (Z.to_N z)
  end.

(** ** JS numbers

    A JS number is tracked exactly when it is an integer of magnitude at
    most [2^53] (every such integer is a double, and sums of two of them
    are exact while they stay in that range).  [JInf] is an infinity;
    [JUnknown] is a number that is not NaN but whose value the model does
    not track (fractions, large literals, sums that leave the exact
    range).  Printing an untracked number is outside the model. *)
Inductive jsnum : Type :=
| JNaN
| JNum (z : Z)
| JInf (neg : bool)
| JUnknown.

Definition max_exact : Z := (2 ^ 53)%Z.

Definition exact (z : Z) : jsnum :=
  if (Z.abs z <=? max_exact)%Z then JNum z else JUnknown.

Definition isNaN (x : jsnum) : bool :=
  match x with JNaN => true | _ => false end.

Definition is_hex (c : ascii) : bool :=
  let n := code c in
  is_digit c || ((65 <=? n) && (n <=? 70)) || ((97 <=? n) && (n <=? 102)).

(** [0x..], [0o..], [0b..] literals ([NonDecimalIntegerLiteral]). *)
Definition is_nondecimal_literal (l : list ascii) : bool :=
  match l with
  | "0"%char :: k :: ((_ :: _) as ds) =>
      if Ascii.eqb k "x" || Ascii.eqb k "X" then forallb is_hex ds
      else if Ascii.eqb k "o" || Ascii.eqb k "O"
      then forallb (fun c => (48 <=? code c) && (code c <=? 55)) ds
      else if Ascii.eqb k "b" || Ascii.eqb k "B"
      then forallb (fun c => (48 <=? code c) && (code c <=? 49)) ds
      else false
  | _ => false
  end.

Fixpoint span_digits (l : list ascii) : list ascii * list ascii :=
  match l with
  | c :: t => if is_digit c then let '(d, r) := span_digits t in (c :: d, r) else ([], l)
  | [] => ([], [])
  end.

(** Optional [ExponentPart] ending the literal. *)
Definition exponent_ok (l : list ascii) : bool :=
  match l with
  | [] => true
  | e :: r =>
      (Ascii.eqb e "e" || Ascii.eqb e "E") &&
      let r' := match r with
                | "+"%char :: t | "-"%char :: t => t
                | _ => r
                end in
      match r' with [] => false | _ => forallb is_digit r' end
  end.

(** [StrUnsignedDecimalLiteral] without [Infinity]. *)
Definition is_unsigned_decimal (l : list ascii) : bool :=
  let '(d1, r1) := span_digits l in
  match r1 with
  | "."%char :: t =>
      let '(d2, r2) := span_digits t in
      (negb (List.length d1 =? 0) || negb (List.length d2 =? 0)) && exponent_ok r2
  | _ => negb (List.length d1 =? 0) && exponent_ok r1
  end.

Definition list_ascii_eqb (l1 l2 : list ascii) : bool :=
  String.eqb (of_chars l1) (of_chars l2).

(** [Number(s)] ([StringToNumber]). *)
Definition Number (s : string) : jsnum :=
  let l := chars (trim s) in
  match l with
  | [] => JNum 0
  | _ =>
      if is_nondecimal_literal l then JUnknown else
      let '(neg, body) := match l with
                          | "+"%char :: t => (false, t)
                          | "-"%char :: t => (true, t)
                          | _ => (false, l)
                          end in
      if list_ascii_eqb body (chars "Infinity") then JInf neg
      else if negb (List.length body =? 0) && forallb is_digit body
      then exact (if neg then - digits_value body else digits_value body)%Z
      else if is_unsigned_decimal body then JUnknown
      else JNaN
  end.

(** [a + b]. *)
Definition js_add (a b : jsnum) : jsnum :=
  match a, b with
  | JNaN, _ | _, JNaN => JNaN
  | JInf n1, JInf n2 => if Bool.eqb n1 n2 then JInf n1 else JNaN
  | JInf n, _ | _, JInf n => JInf n
  | JNum x, JNum y => exact (x + y)
  | _, _ => JUnknown
  end.

(** [a / n] for a count [n] (an array length). *)
Definition js_div_count (a : jsnum) (n : nat) : jsnum :=
  match a, n with
  | JNaN, _ => JNaN
  | JInf neg, _ => JInf neg
  | JNum x, O => if (x =? 0)%Z then JNaN else JInf (x <? 0)%Z
  | JNum x, S _ =>
      if (x mod Z.of_nat n =? 0)%Z then JNum (x / Z.of_nat n) else JUnknown
  | JUnknown, _ => JUnknown
  end.

(** [Math.max(a, b)] and [Math.min(a, b)] on non-NaN operands. *)
Definition js_max2 (a b : jsnum) : jsnum :=
  match a, b with
  | JNaN, _ | _, JNaN => JNaN
  | JInf false, _ | _, JInf false => JInf false
  | JInf true, x | x, JInf true => x
  | JNum x, JNum y => JNum (Z.max x y)
  | _, _ => JUnknown
  end.

Definition js_min2 (a b : jsnum) : jsnum :=
  match a, b with
  | JNaN, _ | _, JNaN => JNaN
  | JInf true, _ | _, JInf true => JInf true
  | JInf false, x | x, JInf false => x
  | JNum x, JNum y => JNum (Z.min x y)
  | _, _ => JUnknown
  end.

(** [Math.max(...xs)] is [-Infinity] on no argument. *)
Definition Math_max (xs : list jsnum) : jsnum := fold_left js_max2 xs (JInf true).
Definition Math_min (xs : list jsnum) : jsnum := fold_left js_min2 xs (JInf false).

(** [Number.prototype.toString()]; [None] on an untracked number. *)
Definition num_toString (x : jsnum) : option string :=
  match x with
  | JNaN => Some "NaN"
  | JNum z => Some (print_Z z)
  | JInf false => Some "Infinity"
  | JInf true => Some "-Infinity"
  | JUnknown => None
  end.

(** ** References and ranges ([sheet.ts]) *)

(** Results outside the modelled text or numbers are [None]: the
    evaluator lives in this option monad. *)
Definition obind {A B} (m : option A) (k : A -> option B) : option B :=
  match m with Some a => k a | None => None end.

Fixpoint all_some {A} (l : list (option A)) : option (list A) :=
  match l with
  | [] => Some []
  | x :: t => obind x (fun a => obind (all_some t) (fun r => Some (a :: r)))
  end.

Record ParsedRef := {
  colIndex : Z;
  row : Z;
  colAbsolute : bool;
  rowAbsolute : bool;
  original : string
}.

Definition is_letter (c : ascii) : bool :=
  let n := code c in ((65 <=? n) && (n <=? 90)) || ((97 <=? n) && (n <=? 122)).

Fixpoint span_letters (l : list ascii) : list ascii * list ascii :=
  match l with
  | c :: t => if is_letter c then let '(d, r) := span_letters t in (c :: d, r) else ([], l)
  | [] => ([], [])
  end.

Definition upper_ascii_letter (c : ascii) : ascii :=
  if (97 <=? code c) && (code c <=? 122) then ascii_of_nat (code c - 32) else c.

(** [colIndex = colIndex * 26 + (colLetter.charCodeAt(i) - 65)]. *)
Definition col_letters_value (l : list ascii) : Z :=
  fold_left (fun acc c => (acc * 26 + (Z.of_nat (code c) - 65))%Z) l 0%Z.

(** [parseReference]; [None] when it throws.  The row is the exact
    value of its digits, as [parseInt] gives it up to [2^53]. *)
Definition parseReference (ref : string) : option ParsedRef :=
  if String.eqb ref "" then None else
  let orig := trim ref in
  let w0 := chars orig in
  let '(colAbs, w1) := match w0 with
                       | "$"%char :: t => (true, t)
                       | _ => (false, w0)
                       end in
  let '(letters, w2) := span_letters w1 in
  match letters with
  | [] => None
  | _ =>
      let colLetter := map upper_ascii_letter letters in
      let '(rowAbs, w3) := match w2 with
                           | "$"%char :: t => (true, t)
                           | _ => (false, w2)
                           end in
      match w3 with
      | [] => None
      | _ =>
          if forallb is_digit w3 then
            Some {| colIndex := col_letters_value colLetter;
                    row := digits_value w3;
                    colAbsolute := colAbs;
                    rowAbsolute := rowAbs;
                    original := orig |}
          else None
      end
  end.

(** [normalizeReference(ref, undefined)]: every [$] removed. *)
Definition normalizeReference (ref : string) : string := remove_dollars ref.

(** [`${String.fromCharCode(65 + col)}${row}`]; code units from 256 on
    are outside the model. *)
Definition range_cell_name (col r : Z) : option string :=
  if (65 + col <=? 255)%Z
  then Some (String (ascii_of_nat (Z.to_nat (65 + col))) (print_Z r))
  else None.

(** [for (let i = a; i <= b; i++)]. *)
Definition zrange (a b : Z) : list Z :=
  map (fun i => a + Z.of_nat i)%Z (seq 0 (Z.to_nat (b - a + 1))).

(** [parseRange(range)] (no current cell); the [catch] returns [[]].
    Rows are exact integers: the code's [row++] loop agrees for rows
    below [2^53]. *)
Definition parseRange (range : string) : option (list string) :=
  if String.eqb range "" || String.eqb (trim range) "" then Some [] else
  let parts := split ":" range in
  let start := trim (nth 0 parts "") in
  let end_ := if 1 <? List.length parts then trim (nth 1 parts "") else start in
  if String.eqb end_ "" then Some [normalizeReference start] else
  match parseReference start, parseReference end_ with
  | Some startRef, Some endRef =>
      all_some
        (flat_map (fun col => map (fun r => range_cell_name col r)
                                  (zrange (row startRef) (row endRef)))
                  (zrange (colIndex startRef) (colIndex endRef)))
  | _, _ => Some []
  end.

(** ** Parameters of FIND_AND_REPLACE *)

Definition dquote : ascii := ascii_of_nat 34.

Definition is_quote (c : ascii) : bool := Ascii.eqb c dquote || Ascii.eqb c "'".

Fixpoint split_params_aux (l : list ascii) (params : list string) (cur : list ascii)
    (inQuotes : bool) (quoteChar : ascii) : list string :=
  match l with
  | [] => if (List.length cur =? 0) then params else params ++ [trim (of_chars cur)]
  | c :: t =>
      if is_quote c && (negb inQuotes || Ascii.eqb quoteChar c) then
        let inQ := negb inQuotes in
        split_params_aux t params (cur ++ [c]) inQ (if inQ then c else quoteChar)
      else if Ascii.eqb c "," && negb inQuotes then
        split_params_aux t (params ++ [trim (of_chars cur)]) [] inQuotes quoteChar
      else split_params_aux t params (cur ++ [c]) inQuotes quoteChar
  end.

(** [splitParameters]. *)
Definition splitParameters (paramString : string) : list string :=
  split_params_aux (chars paramString) [] [] false "000"%char.

(** [s.replace(/^["']|["']$/g, '')]. *)
Definition strip_quotes (s : string) : string :=
  let l := chars s in
  let l1 := match l with c :: t => if is_quote c then t else l | [] => [] end in
  let l2 := match rev l1 with c :: t => if is_quote c then rev t else l1 | [] => [] end in
  of_chars l2.

(** [GetSubstitution] for a string pattern (no capture groups). *)
Fixpoint get_substitution (repl matched before after : list ascii) : list ascii :=
  match repl with
  | "$"%char :: "$"%char :: t => "$"%char :: get_substitution t matched before after
  | "$"%char :: "&"%char :: t => matched ++ get_substitution t matched before after
  | "$"%char :: "`"%char :: t => before ++ get_substitution t matched before after
  | "$"%char :: "'"%char :: t => after ++ get_substitution t matched before after
  | c :: t => c :: get_substitution t matched before after
  | [] => []
  end%list.

Fixpoint is_prefix_list (p l : list ascii) : bool :=
  match p, l with
  | [], _ => true
  | a :: p', b :: l' => Ascii.eqb a b && is_prefix_list p' l'
  | _ :: _, [] => false
  end.

(** Match positions of [replaceAll]: each search restarts
    [max(1, pattern length)] past the previous match. *)
Fixpoint match_positions (fuel : nat) (s pat : list ascii) (i : nat) : list nat :=
  match fuel with
  | O => []
  | S f =>
      if List.length s <? i then []
      else if is_prefix_list pat (skipn i s)
      then i :: match_positions f s pat (i + Nat.max 1 (List.length pat))
      else match_positions f s pat (S i)
  end.

(** [String.prototype.replaceAll(searchValue, replaceValue)] with string
    arguments. *)
Definition replaceAll (str find rep : string) : string :=
  let s := chars str in
  let pat := chars find in
  let r := chars rep in
  let ps := match_positions (S (List.length s)) s pat 0 in
  let '(acc, endLast) :=
    fold_left (fun '(acc, e) p =>
                 (acc ++ firstn (p - e) (skipn e s)
                      ++ get_substitution r pat (firstn p s) (skipn (p + List.length pat) s),
                  p + List.length pat)%list)
              ps ([], 0) in
  of_chars (acc ++ skipn endLast s)%list.

(** ** Formula evaluation ([evaluateFormula]) *)

(** [[...new Set(values)]]: first occurrences, in order. *)
Fixpoint dedup_aux (seen : list string) (l : list string) : list string :=
  match l with
  | [] => []
  | x :: t =>
      if existsb (String.eqb x) seen then dedup_aux seen t
      else x :: dedup_aux (x :: seen) t
  end.

Definition unique_values (l : list string) : list string := dedup_aux [] l.

(** [values.filter(v => !isNaN(Number(v)))]. *)
Definition numeric_values (values : list string) : list string :=
  filter (fun v => negb (isNaN (Number v))) values.

(** [values.reduce((sum, val) => sum + Number(val), 0)]. *)
Definition sum_values (values : list string) : jsnum :=
  fold_left (fun acc v => js_add acc (Number v)) values (JNum 0).

Definition find_replace_arity_error : string :=
  "#ERROR: Expected 3 parameters (range, find_text, replace_text)".

Definition evaluateFormula (formula : string) (getCellValue : string -> string)
  : option string :=
  if negb (startsWith formula "=") then Some formula else
  obind (toUpperCase (substring1 formula)) (fun cleanFormula =>
  if startsWith cleanFormula "SUM(" then
    obind (parseRange (slice_to_last cleanFormula 4)) (fun range =>
      let values := numeric_values (map getCellValue range) in
      num_toString (sum_values values))
  else if startsWith cleanFormula "AVERAGE(" then
    obind (parseRange (slice_to_last cleanFormula 8)) (fun range =>
      let values := numeric_values (map getCellValue range) in
      num_toString (js_div_count (sum_values values) (List.length values)))
  else if startsWith cleanFormula "MAX(" then
    obind (parseRange (slice_to_last cleanFormula 4)) (fun range =>
      let values := numeric_values (map getCellValue range) in
      num_toString (Math_max (map Number values)))
  else if startsWith cleanFormula "MIN(" then
    obind (parseRange (slice_to_last cleanFormula 4)) (fun range =>
      let values := numeric_values (map getCellValue range) in
      num_toString (Math_min (map Number values)))
  else if startsWith cleanFormula "COUNT(" then
    obind (parseRange (slice_to_last cleanFormula 6)) (fun range =>
      Some (print_Z (Z.of_nat (List.length (numeric_values (map getCellValue range))))))
  else if startsWith cleanFormula "TRIM(" then
    Some (trim (getCellValue (slice_to_last cleanFormula 5)))
  else if startsWith cleanFormula "UPPER(" then
    toUpperCase (getCellValue (slice_to_last cleanFormula 6))
  else if startsWith cleanFormula "LOWER(" then
    Some (toLowerCase (getCellValue (slice_to_last cleanFormula 6)))
  else if startsWith cleanFormula "REMOVE_DUPLICATES(" then
    obind (parseRange (slice_to_last cleanFormula 17)) (fun range =>
      Some (join ", " (unique_values (map getCellValue range))))
  else if startsWith cleanFormula "FIND_AND_REPLACE(" then
    match splitParameters (slice_to_last cleanFormula 16) with
    | [rangeStr; findText; replaceText] =>
        let cleanFindText := strip_quotes findText in
        let cleanReplaceText := strip_quotes replaceText in
        obind (parseRange rangeStr) (fun range =>
          Some (join ", " (map (fun v => replaceAll v cleanFindText cleanReplaceText)
                               (map getCellValue range))))
    | _ => Some find_replace_arity_error
    end
  else Some formula).

(** ** Store data ([sheet.ts] types, [Toolbar.tsx] store) *)

Record CellStyle := {
  bold : bool;
  italic : bool;
  fontSize : Z;
  color : string
}.

Record CellData := {
  value : string;
  formula : string;
  style : CellStyle
}.

(** A JS object from cell id to cell, in property order. *)
Definition Cells := list (string * CellData).

Definition obj_get (k : string) (o : Cells) : option CellData :=
  match find (fun kv => String.eqb (fst kv) k) o with
  | Some (_, v) => Some v
  | None => None
  end.

(** [o[k] = v]: an existing property keeps its place, a new one is
    appended. *)
Fixpoint obj_set (k : string) (v : CellData) (o : Cells) : Cells :=
  match o with
  | [] => [(k, v)]
  | (k', v') :: t => if String.eqb k' k then (k, v) :: t else (k', v') :: obj_set k v t
  end.

Record HistoryState := {
  h_cells : Cells;
  h_rows : Z;
  h_cols : Z
}.

Record ClipboardData := {
  clip_type : option string;
  clip_data : option (list (string * CellData));
  clip_cells : Cells;
  topLeft : string;
  bottomRight : string
}.

Record SheetState := {
  cells : Cells;
  selectedCell : option string;
  selectedCells : list string;
  rows : Z;
  cols : Z;
  isDragging : bool;
  dragStart : option string;
  dragStartCell : option string;
  clipboard : option ClipboardData;
  history : list HistoryState;
  historyIndex : Z
}.

Definition DEFAULT_ROWS : Z := 100.
Definition DEFAULT_COLS : Z := 26.
Definition MAX_HISTORY : Z := 50.

Definition default_style : CellStyle :=
  {| bold := false; italic := false; fontSize := 14; color := "#000000" |}.

Definition createEmptyCell : CellData :=
  {| value := ""; formula := ""; style := default_style |}.

(** The store's initial state. *)
Definition initial_state : SheetState :=
  {| cells := []; selectedCell := None; selectedCells := [];
     rows := DEFAULT_ROWS; cols := DEFAULT_COLS;
     isDragging := false; dragStart := None; dragStartCell := None;
     clipboard := None; history := []; historyIndex := -1 |}.

(** Record updates of [set({...})]. *)
Definition set_cells (c : Cells) (s : SheetState) : SheetState :=
  {| cells := c; selectedCell := selectedCell s; selectedCells := selectedCells s;
     rows := rows s; cols := cols s; isDragging := isDragging s;
     dragStart := dragStart s; dragStartCell := dragStartCell s;
     clipboard := clipboard s; history := history s; historyIndex := historyIndex s |}.

Definition set_grid (c : Cells) (r k : Z) (s : SheetState) : SheetState :=
  {| cells := c; selectedCell := selectedCell s; selectedCells := selectedCells s;
     rows := r; cols := k; isDragging := isDragging s;
     dragStart := dragStart s; dragStartCell := dragStartCell s;
     clipboard := clipboard s; history := history s; historyIndex := historyIndex s |}.

Definition set_history (h : list HistoryState) (i : Z) (s : SheetState) : SheetState :=
  {| cells := cells s; selectedCell := selectedCell s; selectedCells := selectedCells s;
     rows := rows s; cols := cols s; isDragging := isDragging s;
     dragStart := dragStart s; dragStartCell := dragStartCell s;
     clipboard := clipboard s; history := h; historyIndex := i |}.

Definition set_selection (sel : option string) (sels : list string) (drag : bool)
    (ds dsc : option string) (s : SheetState) : SheetState :=
  {| cells := cells s; selectedCell := sel; selectedCells := sels;
     rows := rows s; cols := cols s; isDragging := drag;
     dragStart := ds; dragStartCell := dsc;
     clipboard := clipboard s; history := history s; historyIndex := historyIndex s |}.

Definition set_clipboard (cb : option ClipboardData) (c : Cells) (s : SheetState)
  : SheetState :=
  {| cells := c; selectedCell := selectedCell s; selectedCells := selectedCells s;
     rows := rows s; cols := cols s; isDragging := isDragging s;
     dragStart := dragStart s; dragStartCell := dragStartCell s;
     clipboard := cb; history := history s; historyIndex := historyIndex s |}.

(** ** History ([saveState], [undo], [redo]) *)

(** [array.slice(0, e)]. *)
Definition slice0 {A} (e : Z) (l : list A) : list A :=
  let n := Z.of_nat (List.length l) in
  let e' := if (e <? 0)%Z then Z.max 0 (n + e) else e in
  firstn (Z.to_nat e') l.

Definition saveState (s : SheetState) : SheetState :=
  let currentState := {| h_cells := cells s; h_rows := rows s; h_cols := cols s |} in
  let len := Z.of_nat (List.length (history s)) in
  let newHistory := if (historyIndex s <? len - 1)%Z
                    then slice0 (historyIndex s + 1) (history s)
                    else history s in
  let pushed := (newHistory ++ [currentState])%list in
  let bounded := if (MAX_HISTORY <? Z.of_nat (List.length pushed))%Z
                 then tl pushed else pushed in
  set_history bounded (Z.of_nat (List.length bounded) - 1) s.

(** [history[i]]: [undefined] out of range, and reading [.cells] of it
    throws before any [set]. *)
Definition history_at (h : list HistoryState) (i : Z) : option HistoryState :=
  if (i <? 0)%Z then None else nth_error h (Z.to_nat i).

Definition undo (s : SheetState) : SheetState :=
  if (historyIndex s <=? 0)%Z then s else
  let newIndex := (historyIndex s - 1)%Z in
  match history_at (history s) newIndex with
  | Some prev =>
      set_history (history s) newIndex (set_grid (h_cells prev) (h_rows prev) (h_cols prev) s)
  | None => s
  end.

Definition redo (s : SheetState) : SheetState :=
  if (Z.of_nat (List.length (history s)) - 1 <=? historyIndex s)%Z then s else
  let newIndex := (historyIndex s + 1)%Z in
  match history_at (history s) newIndex with
  | Some next =>
      set_history (history s) newIndex (set_grid (h_cells next) (h_rows next) (h_cols next) s)
  | None => s
  end.

(** ** Rows and columns *)

Definition addRow (s : SheetState) : SheetState :=
  let s := saveState s in set_grid (cells s) (rows s + 1) (cols s) s.

Definition deleteRow (s : SheetState) : SheetState :=
  let s := saveState s in set_grid (cells s) (Z.max 1 (rows s - 1)) (cols s) s.

Definition addColumn (s : SheetState) : SheetState :=
  let s := saveState s in set_grid (cells s) (rows s) (cols s + 1) s.

Definition deleteColumn (s : SheetState) : SheetState :=
  let s := saveState s in set_grid (cells s) (rows s) (Z.max 1 (cols s - 1)) s.

(** ** Cell ids *)

Definition is_upper (c : ascii) : bool := (65 <=? code c) && (code c <=? 90).

(** The first maximal run of characters satisfying [p] (a regex [p+]
    without anchors); empty when there is none. *)
Fixpoint take_while (p : ascii -> bool) (l : list ascii) : list ascii :=
  match l with
  | c :: t => if p c then c :: take_while p t else []
  | [] => []
  end.

Fixpoint first_run (p : ascii -> bool) (l : list ascii) : list ascii :=
  match l with
  | c :: t => if p c then take_while p l else first_run p t
  | [] => []
  end.

(** [id.match(/[A-Z]+/)?.[0] || '']. *)
Definition match_col (id : string) : string := of_chars (first_run is_upper (chars id)).

(** [parseInt(id.match(/\d+/)?.[0] || '0')]. *)
Definition match_row (id : string) : Z := digits_value (first_run is_digit (chars id)).

(** [columnLetterToIndex]. *)
Definition columnLetterToIndex (col : string) : Z :=
  (fold_left (fun acc c => acc * 26 + (Z.of_nat (code c) - 64)) (chars col) 0 - 1)%Z.

Fixpoint index_letters (fuel : nat) (index : Z) (letter : string) : string :=
  match fuel with
  | O => letter
  | S f =>
      if (index <=? 0)%Z then letter else
      let remainder := ((index - 1) mod 26)%Z in
      index_letters f ((index - 1) / 26)%Z
        (String (ascii_of_nat (Z.to_nat (65 + remainder))) letter)
  end.

(** [indexToColumnLetter]; the loop runs at most [log2 (index + 1) + 1]
    times. *)
Definition indexToColumnLetter (index : Z) : string :=
  index_letters (S (Z.to_nat (Z.log2 (index + 1)))) (index + 1) "".

(** [`${indexToColumnLetter(col)}${row}`] ([createCellId] with a
    numeric column). *)
Definition cell_id (col r : Z) : string := indexToColumnLetter col ++ print_Z r.

(** [getSelectionBetween]: row-major rectangle between two ids. *)
Definition getSelectionBetween (start end_ : string) : list string :=
  let startColIndex := columnLetterToIndex (match_col start) in
  let endColIndex := columnLetterToIndex (match_col end_) in
  let startRow := match_row start in
  let endRow := match_row end_ in
  flat_map (fun r => map (fun c => cell_id c r)
                         (zrange (Z.min startColIndex endColIndex) (Z.max startColIndex endColIndex)))
           (zrange (Z.min startRow endRow) (Z.max startRow endRow)).

(** [getTopLeftCell]: the minima start at [Infinity] ([None]).  On an
    empty list the code's [indexToColumnLetter(Infinity)] never returns;
    that case is not modelled, the store calls it on non-empty lists
    only, and [None] gives a placeholder id. *)
Definition getTopLeftCell (ids : list string) : string :=
  let step (acc : option (Z * Z)) id :=
    let c := columnLetterToIndex (match_col id) in
    let r := match_row id in
    match acc with
    | None => Some (c, r)
    | Some (mc, mr) => Some (Z.min mc c, Z.min mr r)
    end in
  match fold_left step ids None with
  | Some (mc, mr) => cell_id mc mr
  | None => String (ascii_of_nat 0) "Infinity"
  end.

(** [getBottomRightCell]: the maxima start at [-1]. *)
Definition getBottomRightCell (ids : list string) : string :=
  let '(mc, mr) :=
    fold_left (fun '(mc, mr) id =>
                 (Z.max mc (columnLetterToIndex (match_col id)), Z.max mr (match_row id)))
              ids ((-1)%Z, (-1)%Z) in
  cell_id mc mr.

(** [parseCellId]; [None] when it throws. *)
Definition parseCellId (id : string) : option (Z * string) :=
  let c := first_run is_upper (chars id) in
  let r := first_run is_digit (chars id) in
  match c, r with
  | _ :: _, _ :: _ => Some (digits_value r, of_chars c)
  | _, _ => None
  end.

(** [calculatePasteOffset]: [(rowOffset, colOffset)]; [None] when a
    [parseCellId] throws. *)
Definition calculatePasteOffset (sourceCellIds : list string) (targetCellId : string)
  : option (Z * Z) :=
  match sourceCellIds with
  | [] => Some (0%Z, 0%Z)
  | _ =>
      obind (all_some (map parseCellId sourceCellIds)) (fun parsed =>
      let sourceRows := map fst parsed in
      let sourceCols := map (fun p => columnLetterToIndex (snd p)) parsed in
      let minSourceRow := fold_left Z.min (tl sourceRows) (hd 0%Z sourceRows) in
      let minSourceCol := fold_left Z.min (tl sourceCols) (hd 0%Z sourceCols) in
      obind (parseCellId targetCellId) (fun '(targetRow, targetCol) =>
      Some (targetRow - minSourceRow, columnLetterToIndex targetCol - minSourceCol)%Z))
  end.

(** ** Cell edits and clipboard *)

(** [Partial<CellData>]. *)
Record PartialCell := {
  p_value : option string;
  p_formula : option string;
  p_style : option CellStyle
}.

Definition merge_cell (c : CellData) (d : PartialCell) : CellData :=
  {| value := match p_value d with Some v => v | None => value c end;
     formula := match p_formula d with Some f => f | None => formula c end;
     style := match p_style d with Some st => st | None => style c end |}.

Definition cell_or_empty (id : string) (o : Cells) : CellData :=
  match obj_get id o with Some c => c | None => createEmptyCell end.

Definition updateCell (id : string) (data : PartialCell) (s : SheetState) : SheetState :=
  let s := saveState s in
  set_cells (obj_set id (merge_cell (cell_or_empty id (cells s)) data) (cells s)) s.

(** [copySelectedCells]: only cells present in [cells] are copied.  The
    write to the system clipboard is outside the store. *)
Definition copySelectedCells (s : SheetState) : SheetState :=
  match selectedCells s with
  | [] => s
  | sel =>
      let cellsToCopy :=
        fold_left (fun acc id => match obj_get id (cells s) with
                                 | Some c => obj_set id c acc
                                 | None => acc
                                 end) sel [] in
      set_clipboard (Some {| clip_type := None; clip_data := None;
                             clip_cells := cellsToCopy;
                             topLeft := getTopLeftCell sel;
                             bottomRight := getBottomRightCell sel |}) (cells s) s
  end.

Definition in_bounds (s : SheetState) (c r : Z) : bool :=
  negb ((c <? 0)%Z || (cols s <=? c)%Z || (r <=? 0)%Z || (rows s <? r)%Z).

(** [pasteCells(targetCellId)]. *)
Definition pasteCells (targetCellId : string) (s0 : SheetState) : SheetState :=
  let s := saveState s0 in
  match clipboard s with
  | None => s
  | Some clip =>
      let colOffset := (columnLetterToIndex (match_col targetCellId)
                        - columnLetterToIndex (match_col (topLeft clip)))%Z in
      let rowOffset := (match_row targetCellId - match_row (topLeft clip))%Z in
      let newCells :=
        fold_left (fun acc '(cellId, cellData) =>
                     let newColIndex := (columnLetterToIndex (match_col cellId) + colOffset)%Z in
                     let newRow := (match_row cellId + rowOffset)%Z in
                     if in_bounds s newColIndex newRow
                     then obj_set (cell_id newColIndex newRow) cellData acc
                     else acc)
                  (clip_cells clip) (cells s) in
      set_cells newCells s
  end.

(** [selectedCells.reduce(...)]: every selected id, absent cells as
    empty cells. *)
Definition snapshot_cells (sel : list string) (o : Cells) : Cells :=
  fold_left (fun acc id => obj_set id (cell_or_empty id o) acc) sel [].

Definition snapshot_data (sel : list string) (o : Cells) : list (string * CellData) :=
  map (fun id => (id, cell_or_empty id o)) sel.

(** [copySelection]. *)
Definition copySelection (s : SheetState) : SheetState :=
  match selectedCells s with
  | [] => s
  | sel =>
      set_clipboard (Some {| clip_type := Some "copy";
                             clip_data := Some (snapshot_data sel (cells s));
                             clip_cells := snapshot_cells sel (cells s);
                             topLeft := getTopLeftCell sel;
                             bottomRight := getBottomRightCell sel |}) (cells s) s
  end.

(** [cutSelection]. *)
Definition cutSelection (s0 : SheetState) : SheetState :=
  let s := saveState s0 in
  match selectedCells s with
  | [] => s
  | sel =>
      let newCells := fold_left (fun acc id => obj_set id createEmptyCell acc) sel (cells s) in
      set_clipboard (Some {| clip_type := Some "cut";
                             clip_data := Some (snapshot_data sel (cells s));
                             clip_cells := snapshot_cells sel (cells s);
                             topLeft := getTopLeftCell sel;
                             bottomRight := getBottomRightCell sel |}) newCells s
  end.

Definition copy_of (c : CellData) : CellData :=
  {| value := value c; formula := formula c; style := style c |}.

(** [pasteSelection]; a throwing [parseCellId] leaves the state saved by
    [saveState].  [createCellId(row + rowOffset, col + colOffset)] gets a
    string [col], so [+] concatenates the offset's decimal text. *)
Definition pasteSelection (s0 : SheetState) : SheetState :=
  let s := saveState s0 in
  match clipboard s, selectedCell s with
  | Some clip, Some target =>
      if String.eqb target "" then s else
      match clip_data clip with
      | Some data =>
          if List.length data =? 0 then s
          else if (List.length data =? 1) && (1 <? List.length (selectedCells s)) then
            let sourceCell := snd (hd ("", createEmptyCell) data) in
            set_cells (fold_left (fun acc id => obj_set id (copy_of sourceCell) acc)
                                 (selectedCells s) (cells s)) s
          else
            match calculatePasteOffset (map fst data) target with
            | None => s
            | Some (rowOffset, colOffset) =>
                match all_some (map (fun '(id, cd) =>
                                       option_map (fun rc => (rc, cd)) (parseCellId id)) data) with
                | None => s
                | Some parsed =>
                    set_cells
                      (fold_left (fun acc '((r, c), cd) =>
                                    obj_set (c ++ print_Z colOffset ++ print_Z (r + rowOffset))
                                            (copy_of cd) acc)
                                 parsed (cells s)) s
                end
            end
      | None => pasteCells target s
      end
  | _, _ => s
  end.

(** [clearSpreadsheet] after the confirmation dialog. *)
Definition clearSpreadsheet (confirmed : bool) (s0 : SheetState) : SheetState :=
  if negb confirmed then s0 else
  let s := saveState s0 in
  let cleared :=
    fold_left (fun acc c =>
                 fold_left (fun acc r => obj_set (cell_id c r) createEmptyCell acc)
                           (zrange 1 (rows s)) acc)
              (zrange 0 (cols s - 1)) [] in
  set_cells cleared s.

(** ** CSV import ([importFromCSV]) *)

(** One CSV line: doubled quotes inside quotes are a literal quote. *)
Fixpoint csv_fields (l : list ascii) (values : list string) (cur : list ascii) (inQuotes : bool)
  : list string :=
  match l with
  | [] => (values ++ [of_chars cur])%list
  | c :: t =>
      if Ascii.eqb c dquote then
        match t with
        | c' :: t' => if inQuotes && Ascii.eqb c' dquote
                      then csv_fields t' values (cur ++ [dquote])%list inQuotes
                      else csv_fields t values cur (negb inQuotes)
        | [] => csv_fields t values cur (negb inQuotes)
        end
      else if Ascii.eqb c "," && negb inQuotes then
        csv_fields t (values ++ [of_chars cur])%list [] inQuotes
      else csv_fields t values (cur ++ [c])%list inQuotes
  end.

Definition import_cell (v : string) : CellData :=
  if startsWith v "="
  then {| value := ""; formula := v; style := default_style |}
  else {| value := v; formula := ""; style := default_style |}.

(** The [reader.onload] body up to its [set]: new cells, [maxRow],
    [maxCol]. *)
Definition import_parse (content : string) : Cells * Z * Z :=
  let lines := split (ascii_of_nat 10) content in
  fold_left
    (fun '(acc, maxRow, maxCol) '(rowIndex, line) =>
       if String.eqb (trim line) "" then (acc, maxRow, maxCol) else
       let values := csv_fields (chars line) [] [] false in
       let '(acc', maxCol') :=
         fold_left (fun '(acc, mc) '(colIndex, v) =>
                      (obj_set (cell_id colIndex (rowIndex + 1)) (import_cell v) acc,
                       Z.max mc colIndex))
                   (combine (zrange 0 (Z.of_nat (List.length values) - 1)) values)
                   (acc, maxCol) in
       (acc', Z.max maxRow rowIndex, maxCol'))
    (combine (zrange 0 (Z.of_nat (List.length lines) - 1)) lines)
    ([], 0%Z, 0%Z).

Definition importLoaded (content : string) (s : SheetState) : SheetState :=
  let '(newCells, maxRow, maxCol) := import_parse content in
  set_grid newCells (Z.max (rows s) (maxRow + 1)) (Z.max (cols s) (maxCol + 1)) s.

(** [getCellValue]: [cells[ref]?.value || '']. *)
Definition getCellValue (o : Cells) (ref : string) : string :=
  match obj_get ref o with Some c => value c | None => "" end.

(** A displayed formula result; [untracked] is the text JS prints when
    the result is a number the model does not track. *)
Definition display (untracked : string) (r : option string) : string :=
  match r with Some v => v | None => untracked end.

(** The [setTimeout] pass: formulas evaluated in property order, each
    seeing the values already written. *)
Definition importEvaluate (untracked : string -> string) (s : SheetState) : SheetState :=
  set_cells
    (fold_left (fun acc '(cellId, _) =>
                  let cell := cell_or_empty cellId acc in
                  if startsWith (formula cell) "=" then
                    obj_set cellId
                      {| value := display (untracked cellId)
                                    (evaluateFormula (formula cell) (getCellValue acc));
                         formula := formula cell; style := style cell |} acc
                  else acc)
               (cells s) (cells s)) s.

(** ** Selection and drag *)

Definition startDrag (cellId : string) (s : SheetState) : SheetState :=
  set_selection (selectedCell s) [cellId] true (Some cellId) (Some cellId) s.

Definition handleDrag (cellId : string) (s : SheetState) : SheetState :=
  match isDragging s, dragStart s with
  | true, Some start =>
      if String.eqb start "" then s
      else set_selection (selectedCell s) (getSelectionBetween start cellId)
                         (isDragging s) (dragStart s) (dragStartCell s) s
  | _, _ => s
  end.

Definition endDrag (s : SheetState) : SheetState :=
  set_selection (selectedCell s) (selectedCells s) false (dragStart s) (dragStartCell s) s.

(** ** Recalculation effect of [Cell] ([Cell.tsx], lines 68-75) *)

Definition recalcCell (id : string) (untracked : string) (s : SheetState) : SheetState :=
  let cell := cell_or_empty id (cells s) in
  if String.eqb (formula cell) "" then s else
  let v := display untracked (evaluateFormula (formula cell) (getCellValue (cells s))) in
  if String.eqb v (value cell) then s
  else updateCell id {| p_value := Some v; p_formula := None; p_style := None |} s.

(** ** Store events

    Every action of the store, the two later turns of [importFromCSV]
    ([reader.onload] and its [setTimeout]) and the recalculation effect
    of a [Cell].  [exportToCSV] only downloads a file. *)
Inductive Op : Type :=
| SaveState
| Undo
| Redo
| AddRow
| DeleteRow
| AddColumn
| DeleteColumn
| UpdateCell (id : string) (data : PartialCell)
| SetSelectedCell (id : option string)
| SetSelectedCells (ids : list string)
| StartDrag (id : string)
| HandleDrag (id : string)
| EndDrag
| CopySelectedCells
| PasteCells (target : string)
| CopySelection
| CutSelection
| PasteSelection
| ExportToCSV
| ImportFromCSV
| ImportLoaded (content : string)
| ImportEvaluate (untracked : string -> string)
| ClearSpreadsheet (confirmed : bool)
| RecalcCell (id : string) (untracked : string).

Definition step (op : Op) (s : SheetState) : SheetState :=
  match op with
  | SaveState => saveState s
  | Undo => undo s
  | Redo => redo s
  | AddRow => addRow s
  | DeleteRow => deleteRow s
  | AddColumn => addColumn s
  | DeleteColumn => deleteColumn s
  | UpdateCell id d => updateCell id d s
  | SetSelectedCell id =>
      set_selection id (selectedCells s) (isDragging s) (dragStart s) (dragStartCell s) s
  | SetSelectedCells ids =>
      set_selection (selectedCell s) ids (isDragging s) (dragStart s) (dragStartCell s) s
  | StartDrag id => startDrag id s
  | HandleDrag id => handleDrag id s
  | EndDrag => endDrag s
  | CopySelectedCells => copySelectedCells s
  | PasteCells t => pasteCells t s
  | CopySelection => copySelection s
  | CutSelection => cutSelection s
  | PasteSelection => pasteSelection s
  | ExportToCSV => s
  | ImportFromCSV => saveState s
  | ImportLoaded content => importLoaded content s
  | ImportEvaluate u => importEvaluate u s
  | ClearSpreadsheet ok => clearSpreadsheet ok s
  | RecalcCell id u => recalcCell id u s
  end.

Definition run (ops : list Op) (s : SheetState) : SheetState :=
  fold_left (fun s op => step op s) ops s.

(** The events that call [saveState] first: the mutating edits. *)
Definition is_edit (op : Op) : bool :=
  match op with
  | AddRow | DeleteRow | AddColumn | DeleteColumn | UpdateCell _ _ | PasteCells _
  | CutSelection | PasteSelection | ImportFromCSV => true
  | ClearSpreadsheet ok => ok
  | _ => false
  end.

(** ** Properties and scenarios *)

(** Grid dimensions of the state and of every history entry. *)
Definition dims_ok (r c : Z) : Prop := (1 <= r)%Z /\ (1 <= c)%Z.

Definition bounds_inv (s : SheetState) : Prop :=
  dims_ok (rows s) (cols s) /\ Forall (fun h => dims_ok (h_rows h) (h_cols h)) (history s).

Definition hlen (s : SheetState) : Z := Z.of_nat (List.length (history s)).

(** Index at the last entry, as every [saveState] leaves it. *)
Definition at_end (s : SheetState) : Prop := historyIndex s = (hlen s - 1)%Z.

(** The history stays within [MAX_HISTORY] entries and the index is at
    least [-1]: the invariant of every reachable state. *)
Definition hist_inv (s : SheetState) : Prop :=
  (hlen s <= MAX_HISTORY)%Z /\ (-1 <= historyIndex s)%Z.

(** The grid part of a state, as [saveState] records it. *)
Definition snapshot (s : SheetState) : HistoryState :=
  {| h_cells := cells s; h_rows := rows s; h_cols := cols s |}.

(** [digits_value] from an accumulator. *)
Definition digits_from (a : Z) (l : list ascii) : Z :=
  fold_left (fun acc c => (acc * 10 + digit_val c)%Z) l a.

(** The edit [handleChange] of [Cell] makes for typed text [v]. *)
Definition edit (v : string) : PartialCell :=
  {| p_value := Some v; p_formula := Some (if startsWith v "=" then v else "");
     p_style := None |}.

(** A cell summing a range that contains itself. *)
Definition self_sum_formula : string := "=SUM(A1:B1)".

(** [B1] typed as [1], then [A1] typed as [=SUM(A1:B1)]. *)
Definition loop_setup : list Op :=
  [UpdateCell "B1" (edit "1"); UpdateCell "A1" (edit self_sum_formula)].

(** The cells after [loop_setup] once [A1] displays [n]. *)
Definition loop_cells (n : Z) : Cells :=
  [("B1", {| value := "1"; formula := ""; style := default_style |});
   ("A1", {| value := print_Z n; formula := self_sum_formula; style := default_style |})].

(** The text of an address: column letters from [indexToColumnLetter],
    row digits as [createCellId] prints them, and the [$] markers that
    [parseReference] reads for absolute parts. *)
Definition encodeAddress (col r : Z) (colAbs rowAbs : bool) : string :=
  (if colAbs then "$" else "") ++ indexToColumnLetter col
  ++ (if rowAbs then "$" else "") ++ print_Z r.

(** [B2] and [D4] typed, [A1:B2] selected by dragging, copied with
    [copy], pasted at [D4]. *)
Definition paste_ops (copy : Op) : list Op :=
  [UpdateCell "B2" (edit "b"); UpdateCell "D4" (edit "x");
   StartDrag "A1"; HandleDrag "B2"; EndDrag; copy; PasteCells "D4"].

(** The prefixes [evaluateFormula] tests, in its order. *)
Definition formula_prefixes : list string :=
  ["SUM("; "AVERAGE("; "MAX("; "MIN("; "COUNT("; "TRIM("; "UPPER("; "LOWER(";
   "REMOVE_DUPLICATES("; "FIND_AND_REPLACE("].

(** ** CSV export ([exportToCSV], [Toolbar.tsx] lines 561-608) *)

(** The fold behind [columnLetterToIndex], from an arbitrary start. *)
Definition col_fold (l : list ascii) (a : Z) : Z :=
  fold_left (fun acc c => (acc * 26 + (Z.of_nat (code c) - 64))%Z) l a.

(** [columnLetterToIndex(id.match(/[A-Z]+/)?.[0] || '')]. *)
Definition col_of (id : string) : Z := columnLetterToIndex (match_col id).

(** [cellValue.replace(...)] of line 590: each double quote doubled. *)
Definition csv_escape (l : list ascii) : list ascii :=
  flat_map (fun c => if Ascii.eqb c dquote then [dquote; dquote] else [c]) l.

(** [formattedValue] (lines 589-591). *)
Definition formatValue (cellValue : string) : string :=
  if existsb (fun c => Ascii.eqb c ",") (chars cellValue)
     || existsb (fun c => Ascii.eqb c dquote) (chars cellValue)
  then of_chars (dquote :: csv_escape (chars cellValue) ++ [dquote])
  else cellValue.

(** [exportToCSV]: [maxRow] and [maxCol] over the keys of [cells]
    (lines 566-577). *)
Definition export_bounds (o : Cells) : Z * Z :=
  fold_left (fun '(maxRow, maxCol) '(id, _) =>
               let colNum := columnLetterToIndex (match_col id) in
               let rowNum := match_row id in
               (if (maxRow <? rowNum)%Z then rowNum else maxRow,
                if (maxCol <? colNum)%Z then colNum else maxCol))
            o (0%Z, 0%Z).

(** [rowValues.join(',')] for one row (lines 581-594). *)
Definition export_row (o : Cells) (maxCol row : Z) : string :=
  join "," (map (fun col => formatValue (getCellValue o (cell_id col row))) (zrange 0 maxCol)).

(** The text [exportToCSV] puts in the downloaded file (lines 562-597). *)
Definition exportToCSV_content (o : Cells) : string :=
  let '(maxRow, maxCol) := export_bounds o in
  fold_left (fun csvContent row => csvContent ++ export_row o maxCol row ++ String (ascii_of_nat 10) "")
            (zrange 1 maxRow) "".

(** The cell writes of the parse loop of [importFromCSV] (lines 617-665),
    in order. *)
Definition import_writes (content : string) : list (string * CellData) :=
  let lines := split (ascii_of_nat 10) content in
  flat_map (fun '(rowIndex, line) =>
              if String.eqb (trim line) "" then [] else
              let values := csv_fields (chars line) [] [] false in
              map (fun '(colIndex, v) => (cell_id colIndex (rowIndex + 1), import_cell v))
                  (combine (zrange 0 (Z.of_nat (List.length values) - 1)) values))
           (combine (zrange 0 (Z.of_nat (List.length lines) - 1)) lines).

(** A sequence of [newCells[id] = ...] writes. *)
Definition set_all (ws : list (string * CellData)) (o : Cells) : Cells :=
  fold_left (fun acc kv => obj_set (fst kv) (snd kv) acc) ws o.

(** A cell value without a line feed. *)
Definition no_nl (v : string) : Prop :=
  forallb (fun x => negb (Ascii.eqb x (ascii_of_nat 10))) (chars v) = true.

(** A cell value that survives export and import: no line feed, not a
    formula, and blank only when empty. *)
Definition csv_value_ok (v : string) : Prop :=
  no_nl v /\ startsWith v "=" = false /\ (forallb is_ws (chars v) = true -> v = "").

(** ** Proofs *)

(** *** Grid bounds *)

Lemma Forall_firstn_gen {A} (P : A -> Prop) n l : Forall P l -> Forall P (firstn n l).
Proof.
  revert l; induction n as [|n IH]; intros [|x l] H; simpl; auto.
  inversion H; subst; constructor; auto.
Qed.

Lemma Forall_tl_gen {A} (P : A -> Prop) l : Forall P l -> Forall P (tl l).
Proof. intros H; destruct H; simpl; auto. Qed.

Lemma saveState_bounds s : bounds_inv s -> bounds_inv (saveState s).
Proof.
  intros [Hd Hh]; unfold saveState.
  set (pushed := (_ ++ [_])%list).
  assert (Hn : Forall (fun h => dims_ok (h_rows h) (h_cols h)) pushed).
  { subst pushed; apply Forall_app; split; [|constructor; [exact Hd|constructor]].
    destruct (_ <? _)%Z; [unfold slice0; apply Forall_firstn_gen|]; exact Hh. }
  split; [exact Hd|cbn [history set_history]].
  destruct (MAX_HISTORY <? _)%Z; [apply Forall_tl_gen|]; exact Hn.
Qed.

Lemma set_cells_bounds c s : bounds_inv s -> bounds_inv (set_cells c s).
Proof. intros H; exact H. Qed.

Lemma set_clipboard_bounds cb c s : bounds_inv s -> bounds_inv (set_clipboard cb c s).
Proof. intros H; exact H. Qed.

Lemma set_selection_bounds a b d e f s : bounds_inv s -> bounds_inv (set_selection a b d e f s).
Proof. intros H; exact H. Qed.

Lemma history_at_In h i x : history_at h i = Some x -> In x h.
Proof.
  unfold history_at; destruct (i <? 0)%Z; [discriminate|apply nth_error_In].
Qed.

Lemma restore_bounds s i prev :
  bounds_inv s -> history_at (history s) i = Some prev ->
  bounds_inv (set_history (history s) i (set_grid (h_cells prev) (h_rows prev) (h_cols prev) s)).
Proof.
  intros [_ Hh] Hat; split; simpl; [|exact Hh].
  rewrite Forall_forall in Hh; exact (Hh _ (history_at_In _ _ _ Hat)).
Qed.

Lemma grow_bounds s r c :
  bounds_inv s -> (rows s <= r)%Z -> (cols s <= c)%Z -> bounds_inv (set_grid (cells s) r c s).
Proof. intros [[H1 H2] Hh] Hr Hc; split; [split; simpl; lia|exact Hh]. Qed.

Create HintDb bounds.
#[local] Hint Resolve saveState_bounds set_cells_bounds set_clipboard_bounds
  set_selection_bounds : bounds.

Ltac split_matches :=
  repeat match goal with
         | |- context [match ?x with _ => _ end] => destruct x
         | |- context [if ?b then _ else _] => destruct b
         end.

Lemma step_bounds op s : bounds_inv s -> bounds_inv (step op s).
Proof.
  intros H; destruct op; simpl.
  - auto with bounds.
  - unfold undo; destruct (_ <=? 0)%Z; [exact H|].
    destruct (history_at _ _) eqn:E; [apply restore_bounds; auto|exact H].
  - unfold redo; destruct (_ <=? _)%Z; [exact H|].
    destruct (history_at _ _) eqn:E; [apply restore_bounds; auto|exact H].
  - unfold addRow; apply grow_bounds; [auto with bounds|lia..].
  - unfold deleteRow; pose proof (saveState_bounds s H) as [[H1 H2] Hh].
    split; [split; cbn [rows cols set_grid]; lia|exact Hh].
  - unfold addColumn; apply grow_bounds; [auto with bounds|lia..].
  - unfold deleteColumn; pose proof (saveState_bounds s H) as [[H1 H2] Hh].
    split; [split; cbn [rows cols set_grid]; lia|exact Hh].
  - unfold updateCell; auto with bounds.
  - auto with bounds.
  - auto with bounds.
  - unfold startDrag; auto with bounds.
  - unfold handleDrag; split_matches; auto with bounds.
  - unfold endDrag; auto with bounds.
  - unfold copySelectedCells; split_matches; auto with bounds.
  - unfold pasteCells; pose proof (saveState_bounds s H); split_matches; auto with bounds.
  - unfold copySelection; split_matches; auto with bounds.
  - unfold cutSelection; pose proof (saveState_bounds s H); split_matches; auto with bounds.
  - unfold pasteSelection; pose proof (saveState_bounds s H).
    split_matches; auto with bounds; unfold pasteCells; split_matches; auto with bounds.
  - exact H.
  - auto with bounds.
  - unfold importLoaded; destruct (import_parse content) as [[c mr] mc].
    apply grow_bounds; [exact H|apply Z.le_max_l..].
  - unfold importEvaluate; auto with bounds.
  - unfold clearSpreadsheet; destruct confirmed; simpl; auto with bounds.
  - unfold recalcCell; split_matches; auto with bounds; unfold updateCell; auto with bounds.
Qed.

Lemma run_bounds ops s : bounds_inv s -> bounds_inv (run ops s).
Proof.
  revert s; induction ops as [|op ops IH]; intros s H; simpl; auto.
  apply IH, step_bounds, H.
Qed.

(** C9: from the store's initial state, every sequence of events
    (including repeated [deleteRow] and [deleteColumn]) keeps at least
    one row and one column. *)
Theorem grid_dims_positive (ops : list Op) :
  (1 <= rows (run ops initial_state))%Z /\ (1 <= cols (run ops initial_state))%Z.
Proof.
  assert (H : bounds_inv initial_state).
  { split; [split; cbn [rows cols initial_state]; unfold DEFAULT_ROWS, DEFAULT_COLS; lia|constructor]. }
  exact (proj1 (run_bounds ops _ H)).
Qed.

(** C10: on text that does not start with ['='], [evaluateFormula] is
    the identity, whatever the cell lookup. *)
Theorem evaluateFormula_non_formula (f : string) (getCellValue : string -> string) :
  startsWith f "=" = false -> evaluateFormula f getCellValue = Some f.
Proof. intros H; unfold evaluateFormula; rewrite H; reflexivity. Qed.

(** *** History *)

Lemma saveState_at_end s : at_end (saveState s).
Proof. reflexivity. Qed.

Lemma saveState_len s :
  at_end s ->
  hlen (saveState s) = (if (hlen s <? MAX_HISTORY)%Z then hlen s + 1 else hlen s)%Z.
Proof.
  unfold at_end, hlen, saveState; intros H; rewrite H.
  rewrite Z.ltb_irrefl; cbn [history set_history].
  rewrite length_app; simpl List.length.
  unfold MAX_HISTORY.
  destruct (Z.ltb_spec 50 (Z.of_nat (List.length (history s) + 1))) as [Hc|Hc];
  destruct (Z.ltb_spec (Z.of_nat (List.length (history s))) 50) as [Hd|Hd]; try lia.
  - destruct (history s ++ [_])%list eqn:E.
    + apply (f_equal (@List.length _)) in E; rewrite length_app in E; simpl in E; lia.
    + apply (f_equal (@List.length _)) in E; rewrite length_app in E; simpl in E |- *; lia.
  - rewrite length_app; simpl List.length; lia.
Qed.

(** Every edit leaves the history as one [saveState] or, for
    [pasteSelection] falling back to [pasteCells], as two. *)
Lemma edit_history op s :
  is_edit op = true ->
  (history (step op s) = history (saveState s) /\
   historyIndex (step op s) = historyIndex (saveState s)) \/
  (history (step op s) = history (saveState (saveState s)) /\
   historyIndex (step op s) = historyIndex (saveState (saveState s))).
Proof.
  intros He; destruct op; simpl in He; try discriminate; cbn [step];
  try (left; split; reflexivity).
  - unfold pasteCells; cbv zeta; split_matches; left; split; reflexivity.
  - unfold cutSelection; cbv zeta; split_matches; left; split; reflexivity.
  - unfold pasteSelection; cbv zeta; split_matches; try (left; split; reflexivity).
    all: unfold pasteCells; cbv zeta; split_matches; right; split; reflexivity.
  - unfold clearSpreadsheet; rewrite He; left; split; reflexivity.
Qed.

Lemma edit_at_end op s : is_edit op = true -> at_end (step op s).
Proof.
  intros He; unfold at_end, hlen.
  destruct (edit_history op s He) as [[-> ->]|[-> ->]]; apply saveState_at_end.
Qed.

Lemma edit_len op s :
  is_edit op = true -> at_end s -> (hlen s <= MAX_HISTORY)%Z ->
  (Z.min MAX_HISTORY (hlen s + 1) <= hlen (step op s) <= MAX_HISTORY)%Z.
Proof.
  intros He Ha Hb.
  destruct (edit_history op s He) as [[E _]|[E _]]; unfold hlen at 2 3; rewrite E.
  - pose proof (saveState_len s Ha) as L; unfold hlen in L, Hb |- *; rewrite L.
    unfold MAX_HISTORY in *; destruct (Z.ltb_spec (Z.of_nat (List.length (history s))) 50); lia.
  - pose proof (saveState_len s Ha) as L1.
    pose proof (saveState_len (saveState s) (saveState_at_end s)) as L2.
    unfold hlen in L1, L2, Hb |- *; rewrite L2, L1.
    unfold MAX_HISTORY in *.
    destruct (Z.ltb_spec (Z.of_nat (List.length (history s))) 50);
    [destruct (Z.ltb_spec (Z.of_nat (List.length (history s)) + 1) 50)|
     destruct (Z.ltb_spec (Z.of_nat (List.length (history s))) 50)]; lia.
Qed.

Lemma run_edits_len ops s :
  forallb is_edit ops = true -> at_end s -> (hlen s <= MAX_HISTORY)%Z ->
  (ops <> [] -> at_end (run ops s)) /\
  (Z.min MAX_HISTORY (hlen s + Z.of_nat (List.length ops)) <= hlen (run ops s) <= MAX_HISTORY)%Z.
Proof.
  revert s; induction ops as [|op ops IH]; intros s He Ha Hb; simpl in He |- *.
  - split; [congruence|unfold MAX_HISTORY in *; lia].
  - apply andb_prop in He as [He1 He2].
    pose proof (edit_len op s He1 Ha Hb) as L.
    destruct (IH (step op s) He2 (edit_at_end op s He1) (proj2 L)) as [IH1 IH2].
    split.
    + intros _; destruct ops; [exact (edit_at_end op s He1)|apply IH1; congruence].
    + unfold MAX_HISTORY in *; lia.
Qed.

Lemma undo_step s :
  (historyIndex s <= hlen s - 1)%Z -> (0 < historyIndex s)%Z ->
  historyIndex (undo s) = (historyIndex s - 1)%Z /\ history (undo s) = history s.
Proof.
  unfold hlen, undo; intros Ha Hp.
  destruct (Z.leb_spec (historyIndex s) 0); [lia|].
  unfold history_at; destruct (Z.ltb_spec (historyIndex s - 1) 0); [lia|].
  destruct (nth_error (history s) (Z.to_nat (historyIndex s - 1))) eqn:E.
  - split; reflexivity.
  - apply nth_error_None in E; lia.
Qed.

Lemma undo_iter k s :
  (historyIndex s <= hlen s - 1)%Z -> (Z.of_nat k <= historyIndex s)%Z ->
  historyIndex (Nat.iter k undo s) = (historyIndex s - Z.of_nat k)%Z /\
  history (Nat.iter k undo s) = history s.
Proof.
  induction k as [|k IH]; intros Ha Hk.
  - split; [simpl; lia|reflexivity].
  - change (Nat.iter (S k) undo s) with (undo (Nat.iter k undo s)).
    destruct (IH Ha ltac:(lia)) as [I1 I2].
    assert (Ha' : (historyIndex (Nat.iter k undo s) <= hlen (Nat.iter k undo s) - 1)%Z)
      by (unfold hlen in *; rewrite I2; lia).
    destruct (undo_step _ Ha' ltac:(lia)) as [U1 U2].
    split; [rewrite U1, I1; lia|rewrite U2; exact I2].
Qed.

Lemma undo_at_start s : (historyIndex s <= 0)%Z -> undo s = s.
Proof. unfold undo; intros H; destruct (Z.leb_spec (historyIndex s) 0); [reflexivity|lia]. Qed.

Lemma edit_redo_noop op s : is_edit op = true -> redo (step op s) = step op s.
Proof.
  intros He; pose proof (edit_at_end op s He) as Ha; unfold at_end, hlen in Ha.
  unfold redo; rewrite Ha, Z.leb_refl; reflexivity.
Qed.

Lemma saveState_push s :
  at_end s -> (hlen s < MAX_HISTORY)%Z ->
  history (saveState s) = (history s ++ [snapshot s])%list.
Proof.
  unfold at_end, hlen, saveState, MAX_HISTORY; intros H0 H1; rewrite H0, Z.ltb_irrefl.
  cbn [history set_history]; rewrite length_app; simpl List.length.
  destruct (Z.ltb_spec 50 (Z.of_nat (List.length (history s) + 1))); [lia|reflexivity].
Qed.

Lemma bounded_skipn {A} (l : list A) :
  (List.length l <= 51)%nat ->
  (if (MAX_HISTORY <? Z.of_nat (List.length l))%Z then tl l else l) =
  skipn (List.length l - Z.to_nat MAX_HISTORY) l.
Proof.
  unfold MAX_HISTORY; change (Z.to_nat 50) with 50%nat; intros H.
  destruct (Z.ltb_spec 50 (Z.of_nat (List.length l))).
  - replace (List.length l - 50)%nat with 1%nat by lia. destruct l; reflexivity.
  - replace (List.length l - 50)%nat with 0%nat by lia. reflexivity.
Qed.

(** [saveState] keeps the last [MAX_HISTORY] entries of the kept prefix
    followed by the current snapshot. *)
Lemma saveState_hist s :
  hist_inv s ->
  history (saveState s) =
  let kept := ((if (historyIndex s <? hlen s - 1)%Z
                then firstn (Z.to_nat (historyIndex s + 1)) (history s)
                else history s) ++ [snapshot s])%list in
  skipn (List.length kept - Z.to_nat MAX_HISTORY) kept.
Proof.
  intros [Hl Hi]. unfold saveState, hlen in *. cbn [history set_history].
  destruct (Z.ltb_spec (historyIndex s) (Z.of_nat (List.length (history s)) - 1)).
  - unfold slice0. destruct (Z.ltb_spec (historyIndex s + 1) 0); [lia|].
    apply bounded_skipn. rewrite length_app, length_firstn. cbn [List.length].
    unfold MAX_HISTORY in Hl. lia.
  - apply bounded_skipn. rewrite length_app. cbn [List.length]. unfold MAX_HISTORY in Hl. lia.
Qed.

Lemma hist_inv_saveState s : hist_inv s -> hist_inv (saveState s).
Proof.
  intros H. pose proof (saveState_at_end s) as Ha. unfold at_end in Ha.
  split; [|unfold hlen in Ha; lia].
  unfold hlen. rewrite (saveState_hist s H). cbv zeta. rewrite length_skipn.
  unfold MAX_HISTORY; change (Z.to_nat 50) with 50%nat. lia.
Qed.

Lemma hist_inv_set_cells c s : hist_inv s -> hist_inv (set_cells c s).
Proof. intros H; exact H. Qed.

Lemma hist_inv_set_grid c r k s : hist_inv s -> hist_inv (set_grid c r k s).
Proof. intros H; exact H. Qed.

Lemma hist_inv_set_selection a b d e f s : hist_inv s -> hist_inv (set_selection a b d e f s).
Proof. intros H; exact H. Qed.

Lemma hist_inv_set_clipboard cb c s : hist_inv s -> hist_inv (set_clipboard cb c s).
Proof. intros H; exact H. Qed.

Lemma hist_inv_undo s : hist_inv s -> hist_inv (undo s).
Proof.
  intros H. unfold undo. destruct (Z.leb_spec (historyIndex s) 0); [exact H|].
  destruct (history_at _ _); [|exact H].
  destruct H as [H1 H2]. split; [exact H1|cbn [historyIndex set_history]; lia].
Qed.

Lemma hist_inv_redo s : hist_inv s -> hist_inv (redo s).
Proof.
  intros H. unfold redo. destruct (Z.leb_spec (Z.of_nat (List.length (history s)) - 1) (historyIndex s)); [exact H|].
  destruct (history_at _ _); [|exact H].
  destruct H as [H1 H2]. split; [exact H1|cbn [historyIndex set_history]; lia].
Qed.

Create HintDb hist.
#[local] Hint Resolve hist_inv_saveState hist_inv_set_cells hist_inv_set_grid
  hist_inv_set_selection hist_inv_set_clipboard : hist.

Lemma hist_inv_step op s : hist_inv s -> hist_inv (step op s).
Proof.
  intros H; destruct op; cbn [step].
  - auto with hist.
  - apply hist_inv_undo, H.
  - apply hist_inv_redo, H.
  - unfold addRow; auto with hist.
  - unfold deleteRow; auto with hist.
  - unfold addColumn; auto with hist.
  - unfold deleteColumn; auto with hist.
  - unfold updateCell; auto with hist.
  - auto with hist.
  - auto with hist.
  - unfold startDrag; auto with hist.
  - unfold handleDrag; split_matches; auto with hist.
  - unfold endDrag; auto with hist.
  - unfold copySelectedCells; split_matches; auto with hist.
  - unfold pasteCells; cbv zeta; split_matches; auto with hist.
  - unfold copySelection; split_matches; auto with hist.
  - unfold cutSelection; cbv zeta; split_matches; auto with hist.
  - unfold pasteSelection; cbv zeta; split_matches; auto with hist;
      unfold pasteCells; cbv zeta; split_matches; auto with hist.
  - exact H.
  - auto with hist.
  - unfold importLoaded; destruct (import_parse content) as [[c mr] mc]; auto with hist.
  - unfold importEvaluate; auto with hist.
  - unfold clearSpreadsheet; destruct confirmed; cbn [negb]; auto with hist.
  - unfold recalcCell; split_matches; auto with hist; unfold updateCell; auto with hist.
Qed.

Lemma hist_inv_run ops s : hist_inv s -> hist_inv (run ops s).
Proof.
  revert s; induction ops as [|op ops IH]; intros s H; [exact H|].
  apply IH, hist_inv_step, H.
Qed.

(** The edits other than [PasteSelection] save the history exactly once. *)
Lemma single_save op s :
  is_edit op = true -> op <> PasteSelection ->
  history (step op s) = history (saveState s) /\
  historyIndex (step op s) = historyIndex (saveState s) /\
  snapshot (saveState s) = snapshot s.
Proof.
  intros He Hp. split; [|split; [|reflexivity]];
  destruct op; try discriminate He; try (exfalso; now apply Hp); cbn [step];
    try reflexivity;
    try (unfold pasteCells; destruct (clipboard (saveState s)); reflexivity);
    try (unfold cutSelection; destruct (selectedCells (saveState s)); reflexivity);
    try (cbn in He; subst; reflexivity).
Qed.

Lemma Op_eq_PasteSelection op : op = PasteSelection \/ op <> PasteSelection.
Proof. destruct op; (left; reflexivity) || (right; discriminate). Qed.

(** An edit made before the last entry drops the entries past the index
    and appends the snapshot, twice for [pasteSelection] falling back to
    [pasteCells]; only the last [MAX_HISTORY] entries stay. *)
Lemma edit_truncates op s :
  is_edit op = true -> hist_inv s -> (historyIndex s < hlen s - 1)%Z ->
  exists rest,
    (rest = [snapshot s] \/ rest = [snapshot s; snapshot s]) /\
    (op <> PasteSelection -> rest = [snapshot s]) /\
    history (step op s) =
    skipn (List.length (firstn (Z.to_nat (historyIndex s + 1)) (history s) ++ rest)
           - Z.to_nat MAX_HISTORY)
          (firstn (Z.to_nat (historyIndex s + 1)) (history s) ++ rest).
Proof.
  intros He H Hlt.
  pose proof (saveState_hist s H) as T. cbv zeta in T.
  destruct (Z.ltb_spec (historyIndex s) (hlen s - 1)) as [_|]; [|lia].
  assert (Lk : (List.length (firstn (Z.to_nat (historyIndex s + 1)) (history s)) + 1 <= 50)%nat).
  { destruct H as [Hl Hi]. unfold hlen, MAX_HISTORY in *. rewrite length_firstn. lia. }
  assert (T0 : history (saveState s) = (firstn (Z.to_nat (historyIndex s + 1)) (history s) ++ [snapshot s])%list).
  { rewrite T, length_app. cbn [List.length]. unfold MAX_HISTORY; change (Z.to_nat 50) with 50%nat.
    replace (_ - 50)%nat with 0%nat by lia. reflexivity. }
  assert (Single : history (step op s) = history (saveState s) ->
                   exists rest,
                     (rest = [snapshot s] \/ rest = [snapshot s; snapshot s]) /\
                     (op <> PasteSelection -> rest = [snapshot s]) /\
                     history (step op s) =
                     skipn (List.length (firstn (Z.to_nat (historyIndex s + 1)) (history s) ++ rest)
                            - Z.to_nat MAX_HISTORY)
                           (firstn (Z.to_nat (historyIndex s + 1)) (history s) ++ rest)).
  { intros E. exists [snapshot s]. split; [left; reflexivity|split; [reflexivity|]].
    rewrite E, T0, length_app. cbn [List.length]. unfold MAX_HISTORY; change (Z.to_nat 50) with 50%nat.
    replace (_ - 50)%nat with 0%nat by lia. reflexivity. }
  destruct (edit_history op s He) as [[E _]|[E _]]; [exact (Single E)|].
  destruct (Op_eq_PasteSelection op) as [->|Hn].
  - exists [snapshot s; snapshot s]. split; [right; reflexivity|split; [congruence|]].
    rewrite E, (saveState_hist (saveState s) (hist_inv_saveState s H)). cbv zeta.
    pose proof (saveState_at_end s) as Ha. unfold at_end in Ha. rewrite Ha, Z.ltb_irrefl.
    rewrite T0, <- app_assoc. reflexivity.
  - apply Single. apply (single_save op s He Hn).
Qed.
(** C4 (amended): after more than [MAX_HISTORY] edits from the initial
    state, [undo] moves the index back exactly [MAX_HISTORY - 1 = 49]
    times and is a no-op from then on.  In any reachable state whose
    index is before the last entry, an edit drops every entry past the
    index: the new history is the entries up to the index followed by
    the snapshot of the state before the edit (twice for a
    [pasteSelection] falling back to [pasteCells]), of which the last
    [MAX_HISTORY] stay.  [redo] right after any edit is a no-op. *)
Theorem history_undo_bound (ops : list Op) :
  forallb is_edit ops = true -> (50 < List.length ops)%nat ->
  let s := run ops initial_state in
  (forall k, (k <= 49)%nat -> historyIndex (Nat.iter k undo s) = (49 - Z.of_nat k)%Z) /\
  undo (Nat.iter 49 undo s) = Nat.iter 49 undo s /\
  (forall ops' op, is_edit op = true ->
     let s' := run ops' initial_state in
     (historyIndex s' < hlen s' - 1)%Z ->
     exists rest,
       (rest = [snapshot s'] \/ rest = [snapshot s'; snapshot s']) /\
       (op <> PasteSelection -> rest = [snapshot s']) /\
       history (step op s') =
       skipn (List.length (firstn (Z.to_nat (historyIndex s' + 1)) (history s') ++ rest)
              - Z.to_nat MAX_HISTORY)
             (firstn (Z.to_nat (historyIndex s' + 1)) (history s') ++ rest)) /\
  (forall op s', is_edit op = true -> redo (step op s') = step op s').
Proof.
  intros He Hn s.
  assert (Hi : at_end initial_state) by reflexivity.
  destruct (run_edits_len ops initial_state He Hi ltac:(cbn; unfold MAX_HISTORY; lia))
    as [Ha Hl].
  assert (Hne : ops <> []) by (intros ->; simpl in Hn; lia).
  specialize (Ha Hne); fold s in Ha, Hl.
  assert (L : hlen s = 50%Z)
    by (unfold hlen in *; cbn [initial_state history List.length] in Hl; unfold MAX_HISTORY in Hl; lia).
  assert (I : historyIndex s = 49%Z) by (unfold at_end in Ha; lia).
  assert (Hb : (historyIndex s <= hlen s - 1)%Z) by lia.
  split; [|split; [|split]].
  - intros k Hk; destruct (undo_iter k s Hb ltac:(lia)) as [I1 _]; lia.
  - apply undo_at_start; destruct (undo_iter 49 s Hb ltac:(lia)) as [I1 _]; lia.
  - intros ops' op Hop s' Hlt. apply edit_truncates; [exact Hop| |exact Hlt].
    apply hist_inv_run. split; cbn; unfold MAX_HISTORY; lia.
  - exact edit_redo_noop.
Qed.

Lemma history_undo_bound_witness :
  forallb is_edit (repeat AddRow 51) = true /\ (50 < List.length (repeat AddRow 51))%nat /\
  historyIndex (Nat.iter 49 undo (run (repeat AddRow 51) initial_state)) = 0%Z.
Proof.
  split; [reflexivity|split; [simpl; lia|]].
  destruct (history_undo_bound (repeat AddRow 51) eq_refl ltac:(simpl; lia)) as [H _].
  exact (H 49%nat ltac:(lia)).
Defined.

(** C4, as stated, fails: after 51 [addRow]s the 50th [undo] is already
    a no-op, so [undo] cannot be applied [MAX_HISTORY = 50] times. *)
Lemma history_undo_bound_cex :
  let s := run (repeat AddRow 51) initial_state in
  Nat.iter 50 undo s = Nat.iter 49 undo s.
Proof. vm_compute; reflexivity. Qed.

Lemma evaluateFormula_non_formula_witness :
  startsWith "hello" "=" = false /\ evaluateFormula "hello" (fun _ => "") = Some "hello".
Proof.
  split; [reflexivity|].
  apply (evaluateFormula_non_formula "hello" (fun _ => "")); reflexivity.
Defined.

(** *** Decimal text, [Number] and formula lemmas *)

Lemma digit_char_code d : (d < 10)%N -> code (digit_char d) = N.to_nat (48 + d).
Proof.
  intros Hd. unfold code, digit_char, nat_of_ascii.
  rewrite N_ascii_embedding by lia. reflexivity.
Qed.

Lemma digit_char_val d : (d < 10)%N -> digit_val (digit_char d) = Z.of_N d.
Proof. intros Hd. unfold digit_val. rewrite digit_char_code by exact Hd. lia. Qed.

Lemma digit_char_digit d : (d < 10)%N -> is_digit (digit_char d) = true.
Proof.
  intros Hd. unfold is_digit. rewrite digit_char_code by exact Hd.
  apply andb_true_intro; split; apply Nat.leb_le; lia.
Qed.

Lemma print_N_aux_S f n acc :
  print_N_aux (S f) n acc =
  if (n <? 10)%N then digit_char (n mod 10) :: acc
  else print_N_aux f (n / 10) (digit_char (n mod 10) :: acc).
Proof. reflexivity. Qed.

Lemma print_N_aux_spec f : forall n acc, (n < 10 ^ N.of_nat f)%N ->
  digits_from 0 (print_N_aux (S f) n acc) = digits_from (Z.of_N n) acc /\
  (forallb is_digit acc = true -> forallb is_digit (print_N_aux (S f) n acc) = true).
Proof.
  induction f as [|f IH]; intros n acc Hn.
  - assert (n = 0%N) as -> by (simpl in Hn; lia). cbn [print_N_aux].
    replace (0 <? 10)%N with true by reflexivity.
    split; [reflexivity|]. intros Ha. cbn [forallb]. rewrite Ha. reflexivity.
  - assert (Hm : (n mod 10 < 10)%N) by (apply N.mod_lt; lia).
    assert (Hd := N.div_mod n 10 ltac:(lia)).
    rewrite print_N_aux_S. destruct (n <? 10)%N eqn:E.
    + apply N.ltb_lt in E. rewrite N.mod_small by exact E.
      split.
      * unfold digits_from; cbn [fold_left]. rewrite digit_char_val by exact E. reflexivity.
      * intros Ha. cbn [forallb]. rewrite digit_char_digit, Ha by exact E. reflexivity.
    + assert (Hq : (n / 10 < 10 ^ N.of_nat f)%N).
      { apply N.Div0.div_lt_upper_bound.
        rewrite Nat2N.inj_succ, N.pow_succ_r' in Hn. exact Hn. }
      destruct (IH (n / 10)%N (digit_char (n mod 10) :: acc) Hq) as [H1 H2].
      split.
      * rewrite H1. unfold digits_from; cbn [fold_left].
        rewrite digit_char_val by exact Hm. f_equal. lia.
      * intros Ha. apply H2. cbn [forallb]. rewrite digit_char_digit, Ha by exact Hm.
        reflexivity.
Qed.

Lemma pos_size_bound p : (Npos p < 2 ^ N.of_nat (Pos.size_nat p))%N.
Proof.
  induction p as [p IH|p IH|]; cbn [Pos.size_nat]; rewrite ?Nat2N.inj_succ, ?N.pow_succ_r';
    [change (Npos p~1) with (2 * Npos p + 1)%N
    |change (Npos p~0) with (2 * Npos p)%N | ]; [lia | lia | reflexivity].
Qed.

Lemma print_N_aux_nonempty f : forall n acc, acc <> [] -> print_N_aux f n acc <> [].
Proof.
  induction f as [|f IH]; intros n acc Ha; [exact Ha|].
  rewrite print_N_aux_S. destruct (n <? 10)%N; [discriminate|apply IH; discriminate].
Qed.

Lemma print_N_chars n :
  digits_from 0 (chars (print_N n)) = Z.of_N n /\
  forallb is_digit (chars (print_N n)) = true /\ chars (print_N n) <> [].
Proof.
  unfold print_N, chars, of_chars. rewrite list_ascii_of_string_of_list_ascii.
  assert (Hb : (n < 10 ^ N.of_nat (N.size_nat n))%N).
  { destruct n as [|p]; [reflexivity|].
    eapply N.lt_le_trans; [apply pos_size_bound|].
    apply N.pow_le_mono_l. lia. }
  destruct (print_N_aux_spec (N.size_nat n) n [] Hb) as [H1 H2].
  split; [exact H1|split; [exact (H2 eq_refl)|]].
  rewrite print_N_aux_S. destruct (n <? 10)%N; [discriminate|].
  apply print_N_aux_nonempty; discriminate.
Qed.

Ltac ascii_cases c := destruct c as [[] [] [] [] [] [] [] []].

Lemma digit_not_ws c : is_digit c = true -> is_ws c = false.
Proof. intros H; ascii_cases c; try discriminate H; reflexivity. Qed.

Lemma drop_ws_digits l : forallb is_digit l = true -> drop_ws l = l.
Proof.
  destruct l as [|a t]; [reflexivity|]. intros H. apply andb_prop in H as [Ha _].
  cbn [drop_ws]. rewrite digit_not_ws by exact Ha. reflexivity.
Qed.

Lemma forallb_rev {A} (p : A -> bool) l : forallb p (rev l) = forallb p l.
Proof.
  induction l as [|a t IH]; [reflexivity|].
  cbn [rev forallb]. rewrite forallb_app, IH. cbn [forallb].
  rewrite andb_true_r, andb_comm. reflexivity.
Qed.

Lemma trim_digits s : forallb is_digit (chars s) = true -> trim s = s.
Proof.
  intros H. unfold trim. rewrite (drop_ws_digits _ H).
  rewrite drop_ws_digits by (rewrite forallb_rev; exact H).
  rewrite rev_involutive. apply string_of_list_ascii_of_string.
Qed.

Lemma nondecimal_digits l : forallb is_digit l = true -> is_nondecimal_literal l = false.
Proof.
  destruct l as [|a [|k [|c t]]]; intros H; try reflexivity; ascii_cases a; try reflexivity.
  cbn [forallb] in H. apply andb_prop in H as [_ H]. apply andb_prop in H as [Hk _].
  ascii_cases k; try reflexivity; discriminate Hk.
Qed.

Lemma Number_digits s :
  chars s <> [] -> forallb is_digit (chars s) = true ->
  Number s = exact (digits_from 0 (chars s)).
Proof.
  intros Hn H. unfold Number. rewrite (trim_digits s H).
  assert (Hnd := nondecimal_digits _ H).
  destruct (chars s) as [|a t]; [congruence|]. rewrite Hnd.
  pose proof H as H'. apply andb_prop in H' as [Ha _].
  ascii_cases a; try discriminate Ha; cbn -[exact forallb digits_value]; rewrite H; reflexivity.
Qed.

Lemma Number_print_Z n : (0 <= n)%Z -> (n <= max_exact)%Z -> Number (print_Z n) = JNum n.
Proof.
  intros H0 H1.
  assert (E : print_Z n = print_N (Z.to_N n)) by (destruct n; [reflexivity|reflexivity|lia]).
  rewrite E. destruct (print_N_chars (Z.to_N n)) as [Hv [Hd Hn]].
  rewrite Number_digits by assumption. rewrite Hv, Z2N.id by exact H0.
  unfold exact. replace (Z.abs n <=? max_exact)%Z with true by (symmetry; apply Z.leb_le; lia).
  reflexivity.
Qed.

Lemma print_Z_inj_nonneg n m :
  (0 <= n)%Z -> (n <= max_exact)%Z -> (0 <= m)%Z -> (m <= max_exact)%Z ->
  print_Z n = print_Z m -> n = m.
Proof.
  intros; assert (Number (print_Z n) = Number (print_Z m)) by congruence.
  rewrite !Number_print_Z in * by assumption. congruence.
Qed.

Lemma exact_in z : (Z.abs z <= max_exact)%Z -> exact z = JNum z.
Proof. intros H. unfold exact. apply Z.leb_le in H. rewrite H. reflexivity. Qed.

Lemma js_add_num x y : js_add (JNum x) (JNum y) = exact (x + y).
Proof. reflexivity. Qed.

Lemma eval_self_sum g :
  evaluateFormula self_sum_formula g = num_toString (sum_values (numeric_values [g "A1"; g "B1"])).
Proof. reflexivity. Qed.

Lemma recalc_loop_step n u s :
  cells s = loop_cells n -> (0 <= n)%Z -> (n + 1 <= max_exact)%Z ->
  evaluateFormula self_sum_formula (getCellValue (cells s)) = Some (print_Z (n + 1)) /\
  cells (recalcCell "A1" u s) = loop_cells (n + 1).
Proof.
  intros Hc H0 H1.
  assert (Ev : evaluateFormula self_sum_formula (getCellValue (cells s)) = Some (print_Z (n + 1))).
  { rewrite eval_self_sum, Hc.
    replace (getCellValue (loop_cells n) "A1") with (print_Z n) by reflexivity.
    replace (getCellValue (loop_cells n) "B1") with "1" by reflexivity.
    unfold numeric_values, sum_values. cbn [filter].
    rewrite Number_print_Z by lia. change (Number "1") with (JNum 1).
    cbn [isNaN negb fold_left].
    rewrite Number_print_Z by lia. change (Number "1") with (JNum 1).
    rewrite js_add_num, exact_in by lia.
    rewrite Z.add_0_l, js_add_num, exact_in by lia. reflexivity. }
  split; [exact Ev|].
  unfold recalcCell. rewrite Hc. rewrite Hc in Ev.
  change (cell_or_empty "A1" (loop_cells n))
    with {| value := print_Z n; formula := self_sum_formula; style := default_style |}.
  cbn [formula value].
  replace (String.eqb self_sum_formula "") with false by reflexivity.
  rewrite Ev. cbn [display].
  replace (String.eqb (print_Z (n + 1)) (print_Z n)) with false
    by (symmetry; apply String.eqb_neq; intros E;
        apply print_Z_inj_nonneg in E; unfold max_exact in *; lia).
  unfold updateCell. cbn [cells set_cells].
  replace (cells (saveState s)) with (loop_cells n) by (rewrite <- Hc; reflexivity).
  reflexivity.
Qed.

Lemma startsWith_app s p : startsWith s p = true -> exists w, s = p ++ w.
Proof.
  unfold startsWith. revert s; induction p as [|a p IH]; intros s H.
  - exists s; reflexivity.
  - destruct s as [|b s]; [discriminate|].
    cbn in H. destruct (ascii_dec a b) as [->|]; [|discriminate].
    destruct (IH s H) as [w ->]. exists w; reflexivity.
Qed.

Lemma numeric_values_nan (g : string -> string) (refs : list string) :
  (forall r, In r refs -> isNaN (Number (g r)) = true) -> numeric_values (map g refs) = [].
Proof.
  induction refs as [|r t IH]; intros H; [reflexivity|].
  cbn [map]. unfold numeric_values. cbn [filter].
  rewrite (H r (or_introl eq_refl)). apply IH. intros r' Hr'. apply H. right; exact Hr'.
Qed.

Lemma startsWith_FIND_AND_REPLACE u :
  startsWith u "FIND_AND_REPLACE(" = true ->
  forallb (fun p => negb (startsWith u p)) (removelast formula_prefixes) = true.
Proof. intros H. destruct (startsWith_app _ _ H) as [w ->]. reflexivity. Qed.

(** *** Formula evaluation and recalculation *)

(** C1 (amended): there is no cycle detection.  [evaluateFormula] reads
    the current values once, so every evaluation terminates, and a
    self-referencing formula gets an ordinary result, never [#CIRCULAR].
    For [A1 = =SUM(A1:B1)] and [B1 = 1], each run of the recalculation
    effect writes a new value into [A1]: after [k + 1] runs, [A1] holds
    [k + 1] (while that stays below [2^53]).  The effect therefore
    never settles. *)
Theorem recalc_self_reference (u : string) (k : nat) :
  (Z.of_nat k < max_exact)%Z ->
  cells (Nat.iter (S k) (recalcCell "A1" u) (run loop_setup initial_state))
  = loop_cells (Z.of_nat (S k)).
Proof.
  induction k as [|k IH]; intros Hk.
  - reflexivity.
  - change (Nat.iter (S (S k)) (recalcCell "A1" u) (run loop_setup initial_state))
      with (recalcCell "A1" u (Nat.iter (S k) (recalcCell "A1" u) (run loop_setup initial_state))).
    rewrite Nat2Z.inj_succ.
    apply (recalc_loop_step (Z.of_nat (S k)) u); [apply IH; lia | lia | lia].
Qed.

(** C2 (code bug): [parseReference] reads column letters as positional
    base 26 with [A = 0], while [indexToColumnLetter] writes bijective
    base 26.  Column 26 is encoded as ["AA1"], which decodes to column
    0, the same column that ["A1"] decodes to.  [columnLetterToIndex]
    in the same code base maps ["AA"] to 26. *)
Theorem parseReference_encode_mismatch :
  encodeAddress 26 1 false false = "AA1" /\
  columnLetterToIndex "AA" = 26%Z /\
  option_map colIndex (parseReference (encodeAddress 26 1 false false)) = Some 0%Z /\
  option_map colIndex (parseReference (encodeAddress 0 1 false false)) = Some 0%Z.
Proof. repeat split; reflexivity. Qed.

(** C3 (code bug): [parseRange] loops from the start corner to the end
    corner without taking minima and maxima.  ["B2:A1"] expands to no
    cell, while ["A1:B2"] expands to four cells.  ["A1:A1"] expands to
    [[A1]].  [getSelectionBetween] does normalise its corners. *)
Theorem parseRange_corner_order :
  parseRange "A1:B2" = Some ["A1"; "A2"; "B1"; "B2"] /\
  parseRange "B2:A1" = Some [] /\
  parseRange "A1:A1" = Some ["A1"] /\
  getSelectionBetween "B2" "A1" = getSelectionBetween "A1" "B2".
Proof. repeat split; reflexivity. Qed.

(** C5 (code bug): [copySelectedCells] snapshots only the cells that
    exist.  After copying [A1:B2] (with only [B2] written) and pasting
    at [D4], the old text of [D4] survives, so [D4:E5] is not the
    source.  [copySelection], which snapshots absent cells as empty
    cells, leaves [D4] empty. *)
Theorem copySelectedCells_skips_absent :
  let s := run (paste_ops CopySelectedCells) initial_state in
  let s' := run (paste_ops CopySelection) initial_state in
  selectedCells (run (firstn 5 (paste_ops CopySelectedCells)) initial_state)
    = ["A1"; "B1"; "A2"; "B2"] /\
  map (getCellValue (cells s)) ["D4"; "E4"; "D5"; "E5"] = ["x"; ""; ""; "b"] /\
  map (getCellValue (cells s')) ["D4"; "E4"; "D5"; "E5"] = [""; ""; ""; "b"].
Proof. vm_compute; repeat split; reflexivity. Qed.

(** C6 (amended): an AVERAGE formula whose range has no numeric value
    evaluates to ["NaN"], the text of [0 / 0], not to a [#DIV0] token.
    ([Number("")] is 0, so empty cells count as numeric zeros.) *)
Theorem average_empty_nan f g u refs :
  startsWith f "=" = true -> toUpperCase (substring1 f) = Some u ->
  startsWith u "AVERAGE(" = true -> parseRange (slice_to_last u 8) = Some refs ->
  (forall r, In r refs -> isNaN (Number (g r)) = true) ->
  evaluateFormula f g = Some "NaN".
Proof.
  intros Hf Hu Ha Hr Hn.
  destruct (startsWith_app u "AVERAGE(" Ha) as [w Hw].
  unfold evaluateFormula. rewrite Hf, Hu. cbn [negb obind].
  replace (startsWith u "SUM(") with false by (rewrite Hw; reflexivity).
  rewrite Ha, Hr. cbn [obind]. rewrite numeric_values_nan by exact Hn. reflexivity.
Qed.

(** C7 (amended): a formula ([=] first) whose upper-cased body starts
    with none of the ten function prefixes evaluates to the formula text
    unchanged.  A recognized function with a malformed argument does not
    fall back to the formula text: FIND_AND_REPLACE with other than three
    parameters evaluates to the fixed error text, and SUM over a range
    text that yields no cell evaluates to [0]. *)
Theorem evaluateFormula_fallbacks f g u :
  startsWith f "=" = true -> toUpperCase (substring1 f) = Some u ->
  (forallb (fun p => negb (startsWith u p)) formula_prefixes = true ->
   evaluateFormula f g = Some f) /\
  (startsWith u "FIND_AND_REPLACE(" = true ->
   List.length (splitParameters (slice_to_last u 16)) <> 3 ->
   evaluateFormula f g = Some find_replace_arity_error) /\
  (startsWith u "SUM(" = true -> parseRange (slice_to_last u 4) = Some [] ->
   evaluateFormula f g = Some "0").
Proof.
  intros Hf Hu. unfold evaluateFormula. rewrite Hf, Hu. cbn [negb obind]. split; [|split].
  - intros H. cbn [forallb formula_prefixes] in H.
    repeat match goal with
           | H : _ && _ = true |- _ => apply andb_prop in H as [?H H]
           end.
    rewrite negb_true_iff in *.
    repeat match goal with
           | E : startsWith u _ = false |- _ => rewrite E; clear E
           end.
    reflexivity.
  - intros H Hn. pose proof (startsWith_FIND_AND_REPLACE u H) as Hp.
    cbn [forallb formula_prefixes removelast] in Hp.
    repeat match goal with
           | H : _ && _ = true |- _ => apply andb_prop in H as [?H H]
           end.
    rewrite negb_true_iff in *.
    repeat match goal with
           | E : startsWith u _ = false |- _ => rewrite E; clear E
           end.
    rewrite H.
    destruct (splitParameters (slice_to_last u 16)) as [|a [|b [|c [|d t]]]];
      cbn [List.length] in Hn; try reflexivity; lia.
  - intros Hs Hr. rewrite Hs, Hr. reflexivity.
Qed.

(** C8 (code bug): the REMOVE_DUPLICATES branch slices at 17, but its
    prefix has 18 characters.  The range text keeps the ["("] and
    [parseRange] returns no cell.  So two cells holding ["x"] give [""],
    where slicing at 18 would give ["A1"; "A2"] and the result ["x"]. *)
Theorem remove_duplicates_slice :
  evaluateFormula "=REMOVE_DUPLICATES(A1:A2)" (fun _ => "x") = Some "" /\
  slice_to_last "REMOVE_DUPLICATES(A1:A2)" 17 = "(A1:A2" /\
  parseRange "(A1:A2" = Some [] /\
  String.length "REMOVE_DUPLICATES(" = 18 /\
  parseRange (slice_to_last "REMOVE_DUPLICATES(A1:A2)" 18) = Some ["A1"; "A2"] /\
  unique_values ["x"; "x"] = ["x"].
Proof. repeat split; reflexivity. Qed.

(** *** Instances *)

Lemma recalc_self_reference_witness :
  (Z.of_nat 2 < max_exact)%Z /\
  cells (Nat.iter 3 (recalcCell "A1" "") (run loop_setup initial_state)) = loop_cells 3.
Proof.
  split; [reflexivity|].
  exact (recalc_self_reference "" 2 eq_refl).
Defined.

Lemma recalc_self_reference_cex :
  cells (recalcCell "A1" "" (run loop_setup initial_state)) = loop_cells 1 /\
  getCellValue (loop_cells 1) "A1" = "1".
Proof. split; reflexivity. Qed.

Lemma average_empty_nan_witness :
  evaluateFormula "=AVERAGE(A1:A2)" (fun _ => "abc") = Some "NaN".
Proof.
  apply (average_empty_nan "=AVERAGE(A1:A2)" (fun _ => "abc") "AVERAGE(A1:A2)" ["A1"; "A2"]);
    reflexivity.
Defined.

Lemma average_empty_nan_cex :
  evaluateFormula "=AVERAGE(A1:A2)" (fun _ => "abc") = Some "NaN" /\
  evaluateFormula "=AVERAGE(B2:A1)" (fun _ => "3") = Some "NaN" /\
  evaluateFormula "=AVERAGE(A1:A2)" (fun _ => "") = Some "0".
Proof. split; [|split]; reflexivity. Qed.

Lemma evaluateFormula_fallbacks_witness :
  evaluateFormula "=FOO(A1)" (fun _ => "") = Some "=FOO(A1)" /\
  evaluateFormula "=FIND_AND_REPLACE(A1:A2, x)" (fun _ => "") = Some find_replace_arity_error /\
  evaluateFormula "=sum(zzz)" (fun _ => "5") = Some "0".
Proof.
  split; [|split].
  - apply (proj1 (evaluateFormula_fallbacks "=FOO(A1)" (fun _ => "") "FOO(A1)"
                    eq_refl eq_refl)); reflexivity.
  - apply (proj1 (proj2 (evaluateFormula_fallbacks "=FIND_AND_REPLACE(A1:A2, x)" (fun _ => "")
                    "FIND_AND_REPLACE(A1:A2, X)" eq_refl eq_refl))); [reflexivity|].
    vm_compute; discriminate.
  - apply (proj2 (proj2 (evaluateFormula_fallbacks "=sum(zzz)" (fun _ => "5")
                    "SUM(ZZZ)" eq_refl eq_refl))); reflexivity.
Defined.

Lemma evaluateFormula_fallbacks_cex :
  evaluateFormula "=SUM(ZZZ)" (fun _ => "") = Some "0" /\
  evaluateFormula "=FIND_AND_REPLACE(A1:A2, x)" (fun _ => "") = Some find_replace_arity_error.
Proof. split; reflexivity. Qed.

(** ** Further lemmas: cell ids, selection, store actions, CSV and formulas *)

Lemma letter_code r : (0 <= r < 26)%Z -> code (ascii_of_nat (Z.to_nat (65 + r))) = Z.to_nat (65 + r).
Proof. intros H. unfold code. apply nat_ascii_embedding. lia. Qed.

Lemma index_letters_spec f : forall n letter, (0 <= n)%Z -> (n < 2 ^ Z.of_nat f)%Z ->
  col_fold (chars (index_letters f n letter)) 0 = col_fold (chars letter) n /\
  (forallb is_upper (chars letter) = true -> forallb is_upper (chars (index_letters f n letter)) = true) /\
  ((0 < n)%Z -> chars (index_letters f n letter) <> []).
Proof.
  induction f as [|f IH]; intros n letter H0 H1.
  - simpl in H1. assert (n = 0%Z) as -> by lia. cbn [index_letters].
    split; [reflexivity|split; [auto|lia]].
  - cbn [index_letters]. destruct (Z.leb_spec n 0).
    + assert (n = 0%Z) as -> by lia. split; [reflexivity|split; [auto|lia]].
    + set (r := ((n - 1) mod 26)%Z).
      assert (Hr : (0 <= r < 26)%Z) by (apply Z.mod_pos_bound; lia).
      assert (Hd := Z.div_mod (n - 1) 26 ltac:(lia)). fold r in Hd.
      assert (Hq0 : (0 <= (n - 1) / 26)%Z) by (apply Z.div_pos; lia).
      assert (Hq1 : ((n - 1) / 26 < 2 ^ Z.of_nat f)%Z).
      { rewrite Nat2Z.inj_succ, Z.pow_succ_r in H1 by lia. lia. }
      destruct (IH ((n - 1) / 26)%Z (String (ascii_of_nat (Z.to_nat (65 + r))) letter) Hq0 Hq1)
        as [A [B C]].
      split; [|split].
      * rewrite A. change (chars (String ?c ?s)) with (c :: chars s).
        unfold col_fold; cbn [fold_left]. rewrite letter_code by exact Hr. f_equal. lia.
      * intros Hl. apply B. change (chars (String ?c ?s)) with (c :: chars s).
        cbn [forallb]. rewrite Hl, andb_true_r. unfold is_upper. rewrite letter_code by exact Hr.
        apply andb_true_intro; split; apply Nat.leb_le; lia.
      * intros _. destruct (Z.leb_spec ((n - 1) / 26) 0).
        -- destruct f; cbn [index_letters].
           ++ discriminate.
           ++ destruct (Z.leb_spec ((n - 1) / 26) 0); [discriminate|lia].
        -- apply C. lia.
Qed.

Lemma indexToColumnLetter_spec i : (0 <= i)%Z ->
  col_fold (chars (indexToColumnLetter i)) 0 = (i + 1)%Z /\
  forallb is_upper (chars (indexToColumnLetter i)) = true /\
  chars (indexToColumnLetter i) <> [].
Proof.
  intros H. unfold indexToColumnLetter.
  assert (Hf : (i + 1 < 2 ^ Z.of_nat (S (Z.to_nat (Z.log2 (i + 1)))))%Z).
  { rewrite Nat2Z.inj_succ, Z2Nat.id by (apply Z.log2_nonneg).
    apply (Z.log2_spec (i + 1)). lia. }
  destruct (index_letters_spec _ (i + 1) "" ltac:(lia) Hf) as [A [B C]].
  split; [exact A|split; [exact (B eq_refl)|apply C; lia]].
Qed.

Lemma col_round_trip i :
  (0 <= i)%Z -> columnLetterToIndex (indexToColumnLetter i) = i.
Proof.
  intros H. destruct (indexToColumnLetter_spec i H) as [A _].
  unfold columnLetterToIndex. fold (col_fold (chars (indexToColumnLetter i)) 0). lia.
Qed.

Lemma chars_app s1 s2 : chars (s1 ++ s2) = (chars s1 ++ chars s2)%list.
Proof. induction s1 as [|a s1 IH]; [reflexivity|]. change (a :: chars (s1 ++ s2) = a :: (chars s1 ++ chars s2))%list. rewrite IH; reflexivity. Qed.

Lemma upper_not_digit c : is_upper c = true -> is_digit c = false.
Proof.
  unfold is_upper, is_digit. intros H. apply andb_prop in H as [H1 H2].
  apply Nat.leb_le in H1. apply Nat.leb_le in H2.
  destruct (Nat.leb_spec 48 (code c)); destruct (Nat.leb_spec (code c) 57); simpl; auto; lia.
Qed.

Lemma digit_not_upper c : is_digit c = true -> is_upper c = false.
Proof.
  intros H. destruct (is_upper c) eqn:E; [|reflexivity].
  rewrite (upper_not_digit c E) in H. discriminate.
Qed.

Lemma take_while_all p l rest :
  forallb p l = true -> (match rest with c :: _ => p c = false | [] => True end) ->
  take_while p (l ++ rest) = l.
Proof.
  intros H Hr. induction l as [|a l IH].
  - destruct rest as [|c t]; [reflexivity|]. cbn. rewrite Hr. reflexivity.
  - cbn [forallb] in H. apply andb_prop in H as [Ha Hl].
    cbn [app take_while]. rewrite Ha, (IH Hl). reflexivity.
Qed.

Lemma first_run_skip p l rest :
  forallb (fun c => negb (p c)) l = true -> first_run p (l ++ rest) = first_run p rest.
Proof.
  induction l as [|a l IH]; intros H; [reflexivity|].
  cbn [forallb] in H. apply andb_prop in H as [Ha Hl]. apply negb_true_iff in Ha.
  cbn [app first_run]. rewrite Ha. apply IH, Hl.
Qed.

Lemma print_Z_chars r : (0 <= r)%Z ->
  digits_from 0 (chars (print_Z r)) = r /\
  forallb is_digit (chars (print_Z r)) = true /\ chars (print_Z r) <> [].
Proof.
  intros H. assert (E : print_Z r = print_N (Z.to_N r)) by (destruct r; [reflexivity|reflexivity|lia]).
  rewrite E. destruct (print_N_chars (Z.to_N r)) as [A [B C]].
  rewrite A, Z2N.id by exact H. auto.
Qed.

Lemma cell_id_parts c r : (0 <= c)%Z -> (0 <= r)%Z ->
  first_run is_upper (chars (cell_id c r)) = chars (indexToColumnLetter c) /\
  first_run is_digit (chars (cell_id c r)) = chars (print_Z r).
Proof.
  intros Hc Hr. destruct (indexToColumnLetter_spec c Hc) as [_ [LU LN]].
  destruct (print_Z_chars r Hr) as [_ [DD DN]].
  unfold cell_id. rewrite chars_app.
  destruct (chars (indexToColumnLetter c)) as [|a l] eqn:EL; [congruence|].
  destruct (chars (print_Z r)) as [|d t] eqn:ED; [congruence|].
  split.
  - cbn [app first_run]. cbn [forallb] in LU. apply andb_prop in LU as [Ha Hl].
    rewrite Ha. change (a :: l ++ d :: t)%list with ((a :: l) ++ d :: t)%list.
    apply take_while_all; [cbn [forallb]; rewrite Ha, Hl; reflexivity|].
    cbn [forallb] in DD. apply andb_prop in DD as [Hd _]. apply digit_not_upper, Hd.
  - rewrite first_run_skip.
    + cbn [first_run]. cbn [forallb] in DD. pose proof DD as DD'.
      apply andb_prop in DD' as [Hd _]. rewrite Hd.
      rewrite <- (app_nil_r (d :: t)) at 1. apply take_while_all; [exact DD|exact I].
    + rewrite forallb_forall in LU |- *. intros x Hx. rewrite upper_not_digit by (apply LU, Hx).
      reflexivity.
Qed.

Lemma cell_id_parse c r : (0 <= c)%Z -> (0 <= r)%Z ->
  parseCellId (cell_id c r) = Some (r, indexToColumnLetter c).
Proof.
  intros Hc Hr. destruct (cell_id_parts c r Hc Hr) as [A B].
  destruct (indexToColumnLetter_spec c Hc) as [_ [_ LN]].
  destruct (print_Z_chars r Hr) as [V [_ DN]].
  unfold parseCellId. rewrite A, B.
  destruct (chars (indexToColumnLetter c)) as [|a l] eqn:EL; [congruence|].
  destruct (chars (print_Z r)) as [|d t] eqn:ED; [congruence|].
  unfold digits_value. change (fold_left _ (d :: t) 0%Z) with (digits_from 0 (d :: t)).
  rewrite V. rewrite <- EL. unfold of_chars, chars. rewrite string_of_list_ascii_of_string.
  reflexivity.
Qed.

Lemma match_col_cell_id c r : (0 <= c)%Z -> (0 <= r)%Z ->
  match_col (cell_id c r) = indexToColumnLetter c.
Proof.
  intros Hc Hr. unfold match_col. rewrite (proj1 (cell_id_parts c r Hc Hr)).
  apply string_of_list_ascii_of_string.
Qed.

Lemma match_row_cell_id c r : (0 <= c)%Z -> (0 <= r)%Z -> match_row (cell_id c r) = r.
Proof.
  intros Hc Hr. unfold match_row. rewrite (proj2 (cell_id_parts c r Hc Hr)).
  exact (proj1 (print_Z_chars r Hr)).
Qed.

Lemma in_zrange x a b : In x (zrange a b) <-> (a <= x <= b)%Z.
Proof.
  unfold zrange. rewrite in_map_iff. split.
  - intros [i [<- Hi]]. apply in_seq in Hi. lia.
  - intros H. exists (Z.to_nat (x - a)). split; [lia|]. apply in_seq. lia.
Qed.

Lemma length_zrange a b : List.length (zrange a b) = Z.to_nat (b - a + 1).
Proof. unfold zrange. rewrite length_map, length_seq. reflexivity. Qed.

Lemma NoDup_map_inj {A B} (f : A -> B) l :
  (forall x y, In x l -> In y l -> f x = f y -> x = y) -> NoDup l -> NoDup (map f l).
Proof.
  induction l as [|a l IH]; intros Hi Hn; cbn [map]; [constructor|].
  apply NoDup_cons_iff in Hn as [Ha Hl]. constructor.
  - intros Hin. apply in_map_iff in Hin as [y [Hy Hyl]].
    assert (y = a) by (apply Hi; [right|left|]; auto). subst; contradiction.
  - apply IH; [intros x y Hx Hy; apply Hi; right; auto|exact Hl].
Qed.

Lemma NoDup_zrange a b : NoDup (zrange a b).
Proof.
  unfold zrange. apply NoDup_map_inj; [intros x y _ _ H; lia|apply seq_NoDup].
Qed.

Lemma cell_id_inj c r c' r' :
  (0 <= c)%Z -> (0 <= r)%Z -> (0 <= c')%Z -> (0 <= r')%Z ->
  cell_id c r = cell_id c' r' -> c = c' /\ r = r'.
Proof.
  intros H1 H2 H3 H4 E. split.
  - rewrite <- (col_round_trip c H1),
            <- (col_round_trip c' H3),
            <- (match_col_cell_id c r H1 H2), <- (match_col_cell_id c' r' H3 H4), E.
    reflexivity.
  - rewrite <- (match_row_cell_id c r H1 H2), <- (match_row_cell_id c' r' H3 H4), E.
    reflexivity.
Qed.

Lemma NoDup_rect (f : Z -> Z -> string) cs rs :
  (forall c r c' r', In c cs -> In r rs -> In c' cs -> In r' rs -> f c r = f c' r' -> c = c' /\ r = r') ->
  NoDup cs -> NoDup rs -> NoDup (flat_map (fun r => map (fun c => f c r) cs) rs).
Proof.
  intros Hi Hc. induction rs as [|r rs IH]; intros Hr; cbn [flat_map]; [constructor|].
  apply NoDup_cons_iff in Hr as [Hr Hrs]. apply NoDup_app.
  - apply NoDup_map_inj; [|exact Hc]. intros x y Hx Hy E.
    apply (Hi x r y r); auto; left; reflexivity.
  - apply IH; [|exact Hrs]. intros c0 r0 c' r' A B C D. apply Hi; auto; right; auto.
  - intros a Ha Hb. apply in_map_iff in Ha as [c [<- Hc0]].
    apply in_flat_map in Hb as [r' [Hr' Hb]]. apply in_map_iff in Hb as [c' [E Hc']].
    destruct (Hi c' r' c r) as [_ ->]; auto; [right; auto|left; auto].
Qed.

Lemma selection_rect_eq c1 r1 c2 r2 :
  (0 <= c1)%Z -> (0 <= r1)%Z -> (0 <= c2)%Z -> (0 <= r2)%Z ->
  getSelectionBetween (cell_id c1 r1) (cell_id c2 r2) =
  flat_map (fun r => map (fun c => cell_id c r) (zrange (Z.min c1 c2) (Z.max c1 c2)))
           (zrange (Z.min r1 r2) (Z.max r1 r2)).
Proof.
  intros H1 H2 H3 H4. unfold getSelectionBetween.
  rewrite !match_col_cell_id, !match_row_cell_id, !col_round_trip by assumption.
  reflexivity.
Qed.

Lemma in_rect x (cs rs : list Z) :
  In x (flat_map (fun r => map (fun c => cell_id c r) cs) rs) <->
  exists c r, x = cell_id c r /\ In c cs /\ In r rs.
Proof.
  rewrite in_flat_map. split.
  - intros [r [Hr Hx]]. apply in_map_iff in Hx as [c [<- Hc]]. exists c, r. auto.
  - intros [c [r [-> [Hc Hr]]]]. exists r. split; [exact Hr|].
    apply in_map_iff. exists c. auto.
Qed.

Lemma fold_min_spec l : forall a m,
  (forall x, In x l -> (m <= x)%Z) -> (m <= a)%Z -> (a = m \/ In m l) -> fold_left Z.min l a = m.
Proof.
  induction l as [|x l IH]; intros a m Hl Ha Hm; cbn [fold_left].
  - destruct Hm as [->|[]]; reflexivity.
  - assert (Hx : (m <= x)%Z) by (apply Hl; left; reflexivity).
    apply IH; [intros y Hy; apply Hl; right; exact Hy|lia|].
    destruct Hm as [->|[->|Hm]]; [left; lia|left; lia|right; exact Hm].
Qed.

Lemma fold_max_spec l : forall a m,
  (forall x, In x l -> (x <= m)%Z) -> (a <= m)%Z -> (a = m \/ In m l) -> fold_left Z.max l a = m.
Proof.
  induction l as [|x l IH]; intros a m Hl Ha Hm; cbn [fold_left].
  - destruct Hm as [->|[]]; reflexivity.
  - assert (Hx : (x <= m)%Z) by (apply Hl; left; reflexivity).
    apply IH; [intros y Hy; apply Hl; right; exact Hy|lia|].
    destruct Hm as [->|[->|Hm]]; [left; lia|left; lia|right; exact Hm].
Qed.

Lemma rect_bounds c1 r1 c2 r2 x :
  (0 <= c1)%Z -> (0 <= r1)%Z -> (0 <= c2)%Z -> (0 <= r2)%Z ->
  In x (getSelectionBetween (cell_id c1 r1) (cell_id c2 r2)) ->
  (Z.min c1 c2 <= col_of x <= Z.max c1 c2)%Z /\ (Z.min r1 r2 <= match_row x <= Z.max r1 r2)%Z.
Proof.
  intros H1 H2 H3 H4 Hx. rewrite selection_rect_eq in Hx by assumption.
  apply in_rect in Hx as [c [r [-> [Hc Hr]]]]. apply in_zrange in Hc, Hr.
  unfold col_of. rewrite match_col_cell_id, col_round_trip, match_row_cell_id by lia. lia.
Qed.

Lemma rect_has c1 r1 c2 r2 c r :
  (0 <= c1)%Z -> (0 <= r1)%Z -> (0 <= c2)%Z -> (0 <= r2)%Z ->
  (Z.min c1 c2 <= c <= Z.max c1 c2)%Z -> (Z.min r1 r2 <= r <= Z.max r1 r2)%Z ->
  In (cell_id c r) (getSelectionBetween (cell_id c1 r1) (cell_id c2 r2)).
Proof.
  intros H1 H2 H3 H4 Hc Hr. rewrite selection_rect_eq by assumption.
  apply in_rect. exists c, r. split; [reflexivity|split; apply in_zrange; assumption].
Qed.

Lemma selection_corners c1 r1 c2 r2 :
  (0 <= c1)%Z -> (0 <= r1)%Z -> (0 <= c2)%Z -> (0 <= r2)%Z ->
  let sel := getSelectionBetween (cell_id c1 r1) (cell_id c2 r2) in
  getTopLeftCell sel = cell_id (Z.min c1 c2) (Z.min r1 r2) /\
  getBottomRightCell sel = cell_id (Z.max c1 c2) (Z.max r1 r2).
Proof.
  intros H1 H2 H3 H4 sel.
  assert (B := fun x => rect_bounds c1 r1 c2 r2 x H1 H2 H3 H4).
  assert (TL := rect_has c1 r1 c2 r2 (Z.min c1 c2) (Z.min r1 r2) H1 H2 H3 H4 ltac:(lia) ltac:(lia)).
  assert (BR := rect_has c1 r1 c2 r2 (Z.max c1 c2) (Z.max r1 r2) H1 H2 H3 H4 ltac:(lia) ltac:(lia)).
  assert (CT : col_of (cell_id (Z.min c1 c2) (Z.min r1 r2)) = Z.min c1 c2 /\
               match_row (cell_id (Z.min c1 c2) (Z.min r1 r2)) = Z.min r1 r2).
  { unfold col_of. rewrite match_col_cell_id, col_round_trip, match_row_cell_id by lia. auto. }
  assert (CB : col_of (cell_id (Z.max c1 c2) (Z.max r1 r2)) = Z.max c1 c2 /\
               match_row (cell_id (Z.max c1 c2) (Z.max r1 r2)) = Z.max r1 r2).
  { unfold col_of. rewrite match_col_cell_id, col_round_trip, match_row_cell_id by lia. auto. }
  fold sel in B, TL, BR. split.
  - unfold getTopLeftCell. destruct sel as [|x0 rest] eqn:ES; [destruct TL|].
    cbn [fold_left].
    match goal with |- context [fold_left ?f rest (Some (_, _))] =>
      assert (K : forall ids a0 b0, fold_left f ids (Some (a0, b0)) =
                    Some (fold_left Z.min (map col_of ids) a0, fold_left Z.min (map match_row ids) b0))
        by (clear; induction ids as [|y ids IH]; intros; [reflexivity|apply IH]);
      rewrite K
    end.
    fold (col_of x0).
    destruct (B x0 (or_introl eq_refl)) as [Bc Br].
    rewrite (fold_min_spec (map col_of rest) (col_of x0) (Z.min c1 c2)),
            (fold_min_spec (map match_row rest) (match_row x0) (Z.min r1 r2)); try lia.
    + reflexivity.
    + intros y Hy. apply in_map_iff in Hy as [z [<- Hz]]. apply (B z); right; exact Hz.
    + destruct TL as [E|E]; [left; rewrite E; apply CT|right].
      apply in_map_iff. exists (cell_id (Z.min c1 c2) (Z.min r1 r2)). split; [apply CT|exact E].
    + intros y Hy. apply in_map_iff in Hy as [z [<- Hz]]. apply (B z); right; exact Hz.
    + destruct TL as [E|E]; [left; rewrite E; apply CT|right].
      apply in_map_iff. exists (cell_id (Z.min c1 c2) (Z.min r1 r2)). split; [apply CT|exact E].
  - unfold getBottomRightCell.
    match goal with |- context [fold_left ?f sel (_, _)] =>
      assert (K : forall ids a0 b0, fold_left f ids (a0, b0) =
                    (fold_left Z.max (map col_of ids) a0, fold_left Z.max (map match_row ids) b0))
        by (clear; induction ids as [|y ids IH]; intros; [reflexivity|apply IH]);
      rewrite K
    end.
    destruct sel as [|x0 rest] eqn:ES; [destruct BR|].
    rewrite (fold_max_spec (map col_of (x0 :: rest)) (-1) (Z.max c1 c2)),
            (fold_max_spec (map match_row (x0 :: rest)) (-1) (Z.max r1 r2)); try lia.
    + reflexivity.
    + intros y Hy. apply in_map_iff in Hy as [z [<- Hz]]. apply (B z); exact Hz.
    + right. apply in_map_iff. exists (cell_id (Z.max c1 c2) (Z.max r1 r2)). split; [apply CB|exact BR].
    + intros y Hy. apply in_map_iff in Hy as [z [<- Hz]]. apply (B z); exact Hz.
    + right. apply in_map_iff. exists (cell_id (Z.max c1 c2) (Z.max r1 r2)). split; [apply CB|exact BR].
Qed.

Lemma dollar_split (w : list ascii) :
  match w with "$"%char :: t => (true, t) | _ => (false, w) end =
  if match w with a :: _ => Ascii.eqb a "$" | [] => false end then (true, tl w) else (false, w).
Proof. destruct w as [|a t]; [reflexivity|]. ascii_cases a; reflexivity. Qed.

Lemma span_letters_app l rest :
  forallb is_letter l = true -> (match rest with c :: _ => is_letter c = false | [] => True end) ->
  span_letters (l ++ rest) = (l, rest).
Proof.
  intros H Hr. induction l as [|a l IH].
  - destruct rest as [|c t]; [reflexivity|]. cbn. rewrite Hr. reflexivity.
  - cbn [forallb] in H. apply andb_prop in H as [Ha Hl].
    cbn [app span_letters]. rewrite Ha, (IH Hl). reflexivity.
Qed.

Lemma drop_ws_head l : match l with a :: _ => is_ws a = false | [] => True end -> drop_ws l = l.
Proof. destruct l as [|a t]; [reflexivity|]. intros H. cbn. rewrite H. reflexivity. Qed.

Lemma trim_no_ws s :
  match chars s with a :: _ => is_ws a = false | [] => True end ->
  match rev (chars s) with a :: _ => is_ws a = false | [] => True end ->
  trim s = s.
Proof.
  intros H1 H2. unfold trim. rewrite (drop_ws_head _ H1), (drop_ws_head _ H2), rev_involutive.
  apply string_of_list_ascii_of_string.
Qed.

Lemma single_letter c : (0 <= c <= 25)%Z ->
  indexToColumnLetter c = String (ascii_of_nat (Z.to_nat (65 + c))) "".
Proof.
  intros H. unfold indexToColumnLetter.
  destruct (Z.to_nat (Z.log2 (c + 1))) as [|f]; cbn [index_letters];
    (destruct (Z.leb_spec (c + 1) 0); [lia|]);
    replace ((c + 1 - 1) mod 26)%Z with c by (rewrite Z.mod_small; lia);
    replace ((c + 1 - 1) / 26)%Z with 0%Z by (rewrite Z.div_small; lia);
    [reflexivity|destruct f; reflexivity].
Qed.

Lemma parseReference_encode_single c r ca ra : (0 <= c <= 25)%Z -> (0 <= r)%Z ->
  parseReference (encodeAddress c r ca ra) =
  Some {| colIndex := c; row := r; colAbsolute := ca; rowAbsolute := ra;
          original := encodeAddress c r ca ra |}.
Proof.
  intros Hc Hr.
  destruct (print_Z_chars r Hr) as [Hv [Hd Hne]].
  pose proof (letter_code c ltac:(lia)) as HL.
  set (L := ascii_of_nat (Z.to_nat (65 + c))) in *.
  set (D := chars (print_Z r)) in *.
  assert (HE : chars (encodeAddress c r ca ra) =
               ((if ca then ["$"%char] else []) ++ L :: (if ra then ["$"%char] else []) ++ D)%list).
  { unfold encodeAddress. rewrite !chars_app, single_letter by lia.
    destruct ca, ra; reflexivity. }
  assert (HLl : is_letter L = true) by (unfold is_letter; rewrite HL; apply orb_true_intro; left;
                                        apply andb_true_intro; split; apply Nat.leb_le; lia).
  assert (HLw : is_ws L = false).
  { unfold is_ws. rewrite HL.
    replace (Z.to_nat (65 + c)) with (65 + Z.to_nat c)%nat by lia.
    assert (Hk : (Z.to_nat c <= 25)%nat) by lia. revert Hk. generalize (Z.to_nat c) as k.
    intros k Hk. do 26 (destruct k as [|k]; [reflexivity|]). lia. }
  assert (HLd : Ascii.eqb L "$" = false).
  { apply Ascii.eqb_neq. intros E. apply (f_equal nat_of_ascii) in E.
    change (nat_of_ascii L) with (code L) in E. rewrite HL in E. change (nat_of_ascii "$"%char) with 36 in E. lia. }
  assert (HDd : match D with a :: _ => is_digit a = true | [] => False end).
  { destruct D as [|a t]; [contradiction|]. cbn in Hd. now apply andb_prop in Hd as []. }
  assert (Htrim : trim (encodeAddress c r ca ra) = encodeAddress c r ca ra).
  { apply trim_no_ws; rewrite HE.
    - destruct ca; [reflexivity|exact HLw].
    - pose proof (rev_app_distr (if ca then ["$"%char] else []) (L :: (if ra then ["$"%char] else []) ++ D)%list) as RR. rewrite RR. cbn [rev]. rewrite (rev_app_distr (if ra then ["$"%char] else []) D), <- !app_assoc.
      assert (HR : forallb is_digit (rev D) = true) by (rewrite forallb_rev; exact Hd).
      destruct (rev D) as [|a t] eqn:ER.
      + apply (f_equal (@rev ascii)) in ER. rewrite rev_involutive in ER. contradiction.
      + cbn in HR |- *. apply andb_prop in HR as [Ha _]. now apply digit_not_ws. }
  unfold parseReference.
  assert (Hnil : String.eqb (encodeAddress c r ca ra) "" = false).
  { apply String.eqb_neq. intros E. apply (f_equal chars) in E. rewrite HE in E.
    destruct ca; discriminate E. }
  rewrite Hnil, Htrim. cbn iota. rewrite HE, dollar_split.
  assert (HSp : span_letters (L :: (if ra then ["$"%char] else []) ++ D) =
                ([L], ((if ra then ["$"%char] else []) ++ D)%list)).
  { apply (span_letters_app [L]); [cbn; now rewrite HLl|].
    destruct ra; [reflexivity|]. destruct D as [|a t]; [contradiction|].
    cbn. unfold is_letter, is_digit in *. apply andb_prop in HDd as [H1 H2].
    apply Nat.leb_le in H1, H2. apply orb_false_intro; apply andb_false_intro2 + apply andb_false_intro1;
      apply Nat.leb_gt; lia. }
  destruct ca; cbn [app Ascii.eqb Bool.eqb tl]; try rewrite HLd; cbn iota beta zeta; rewrite HSp; cbn iota beta zeta;
    rewrite dollar_split; destruct ra; cbn [app Ascii.eqb Bool.eqb tl]; cbn iota beta zeta.
  all: assert (HU : col_letters_value (map upper_ascii_letter [L]) = c) by
    (unfold col_letters_value, upper_ascii_letter; cbn [map fold_left]; rewrite HL;
     replace (97 <=? Z.to_nat (65 + c)) with false by (symmetry; apply Nat.leb_gt; lia);
     cbn [andb]; rewrite HL; lia).
  all: assert (HDv : digits_value D = r) by exact Hv.
  all: rewrite HU; clearbody D; destruct D as [|d t]; try contradiction; cbn in HDd.
  all: try replace (Ascii.eqb d "$") with false by
         (symmetry; apply Ascii.eqb_neq; intros ->; discriminate HDd).
  all: cbn [tl]; cbn iota beta zeta; rewrite Hd, HDv; reflexivity.
Qed.

Lemma encode_chars_single c r ca ra : (0 <= c <= 25)%Z ->
  chars (encodeAddress c r ca ra) =
  ((if ca then ["$"%char] else []) ++ ascii_of_nat (Z.to_nat (65 + c)) ::
   (if ra then ["$"%char] else []) ++ chars (print_Z r))%list.
Proof.
  intros Hc. unfold encodeAddress. rewrite !chars_app, single_letter by lia.
  destruct ca, ra; reflexivity.
Qed.

Lemma encode_props c r ca ra : (0 <= c <= 25)%Z -> (0 <= r)%Z ->
  (match chars (encodeAddress c r ca ra) with a :: _ => is_ws a = false | [] => False end) /\
  (match rev (chars (encodeAddress c r ca ra)) with a :: _ => is_digit a = true | [] => False end) /\
  forallb (fun x => negb (Ascii.eqb x ":")) (chars (encodeAddress c r ca ra)) = true.
Proof.
  intros Hc Hr. rewrite encode_chars_single by exact Hc.
  destruct (print_Z_chars r Hr) as [_ [Hd Hne]].
  pose proof (letter_code c ltac:(lia)) as HL.
  set (L := ascii_of_nat (Z.to_nat (65 + c))) in *.
  set (D := chars (print_Z r)) in *. clearbody L D.
  assert (HLw : is_ws L = false).
  { unfold is_ws. rewrite HL.
    replace (Z.to_nat (65 + c)) with (65 + Z.to_nat c)%nat by lia.
    assert (Hk : (Z.to_nat c <= 25)%nat) by lia. revert Hk. generalize (Z.to_nat c) as k.
    intros k Hk. do 26 (destruct k as [|k]; [reflexivity|]). lia. }
  assert (HLc : negb (Ascii.eqb L ":") = true).
  { apply negb_true_iff, Ascii.eqb_neq. intros E. apply (f_equal nat_of_ascii) in E.
    change (nat_of_ascii L) with (code L) in E. rewrite HL in E.
    change (nat_of_ascii ":"%char) with 58 in E. lia. }
  assert (HDc : forallb (fun x => negb (Ascii.eqb x ":")) D = true).
  { revert Hd. clear. induction D as [|d t IH]; [reflexivity|].
    cbn [forallb]. intros H. apply andb_prop in H as [H1 H2]. rewrite (IH H2), andb_true_r.
    ascii_cases d; try discriminate H1; reflexivity. }
  split; [|split].
  - destruct ca; [reflexivity|exact HLw].
  - rewrite rev_app_distr. cbn [app rev]. rewrite rev_app_distr, <- !app_assoc.
    assert (HR : forallb is_digit (rev D) = true) by (rewrite forallb_rev; exact Hd).
    destruct (rev D) as [|a t] eqn:ER.
    + apply (f_equal (@rev ascii)) in ER. rewrite rev_involutive in ER. contradiction.
    + cbn in HR |- *. now apply andb_prop in HR as [Ha _].
  - rewrite forallb_app. cbn [forallb]. rewrite HLc, forallb_app, HDc.
    destruct ca, ra; reflexivity.
Qed.

Lemma split_chars_none sep l :
  forallb (fun x => negb (Ascii.eqb x sep)) l = true -> split_chars sep l = [l].
Proof.
  induction l as [|a t IH]; [reflexivity|]. cbn [forallb split_chars].
  intros H. apply andb_prop in H as [H1 H2]. apply negb_true_iff in H1.
  rewrite H1, (IH H2). reflexivity.
Qed.

Lemma split_chars_app sep l rest :
  forallb (fun x => negb (Ascii.eqb x sep)) l = true ->
  split_chars sep (l ++ sep :: rest) = l :: split_chars sep rest.
Proof.
  induction l as [|a t IH]; intros H.
  - cbn. rewrite Ascii.eqb_refl. reflexivity.
  - cbn [forallb] in H. apply andb_prop in H as [H1 H2]. apply negb_true_iff in H1.
    cbn [app split_chars]. rewrite H1, (IH H2). reflexivity.
Qed.

Lemma all_some_map_Some {A} (l : list A) : all_some (map Some l) = Some l.
Proof. induction l as [|a t IH]; [reflexivity|]. cbn. rewrite IH. reflexivity. Qed.

Lemma flat_map_Some {A B C} (g : A -> B -> option C) (h : A -> B -> C) xs ys :
  (forall x y, In x xs -> g x y = Some (h x y)) ->
  flat_map (fun x => map (g x) ys) xs = map Some (flat_map (fun x => map (h x) ys) xs).
Proof.
  induction xs as [|x xs IH]; intros H; [reflexivity|].
  cbn [flat_map]. rewrite map_app, IH by (intros; apply H; right; assumption).
  f_equal. rewrite map_map. apply map_ext. intros y. apply H. left; reflexivity.
Qed.

Lemma range_cell_name_single col r : (0 <= col <= 25)%Z ->
  range_cell_name col r = Some (cell_id col r).
Proof.
  intros H. unfold range_cell_name, cell_id.
  replace (65 + col <=? 255)%Z with true by (symmetry; apply Z.leb_le; lia).
  rewrite single_letter by exact H. reflexivity.
Qed.

Lemma string_nonempty s : chars s <> [] -> String.eqb s "" = false.
Proof. intros H. apply String.eqb_neq. intros ->. apply H. reflexivity. Qed.

Lemma trim_range_enc c1 r1 ca1 ra1 c2 r2 ca2 ra2 :
  (0 <= c1 <= 25)%Z -> (0 <= r1)%Z -> (0 <= c2 <= 25)%Z -> (0 <= r2)%Z ->
  trim (encodeAddress c1 r1 ca1 ra1 ++ ":" ++ encodeAddress c2 r2 ca2 ra2) =
  encodeAddress c1 r1 ca1 ra1 ++ ":" ++ encodeAddress c2 r2 ca2 ra2.
Proof.
  intros H1 H2 H3 H4.
  destruct (encode_props c1 r1 ca1 ra1 H1 H2) as [Hh _].
  destruct (encode_props c2 r2 ca2 ra2 H3 H4) as [_ [Hl _]].
  apply trim_no_ws; rewrite !chars_app.
  - destruct (chars (encodeAddress c1 r1 ca1 ra1)); [contradiction|exact Hh].
  - rewrite rev_app_distr. rewrite (rev_app_distr (chars ":") (chars (encodeAddress c2 r2 ca2 ra2))), <- app_assoc.
    destruct (rev (chars (encodeAddress c2 r2 ca2 ra2))); [contradiction|].
    now apply digit_not_ws.
Qed.

Lemma trim_enc c r ca ra : (0 <= c <= 25)%Z -> (0 <= r)%Z ->
  trim (encodeAddress c r ca ra) = encodeAddress c r ca ra.
Proof.
  intros H1 H2. destruct (encode_props c r ca ra H1 H2) as [Hh [Hl _]].
  apply trim_no_ws.
  - destruct (chars (encodeAddress c r ca ra)); [contradiction|exact Hh].
  - destruct (rev (chars (encodeAddress c r ca ra))); [contradiction|]. now apply digit_not_ws.
Qed.

Lemma parseRange_enc c1 r1 ca1 ra1 c2 r2 ca2 ra2 :
  (0 <= c1 <= 25)%Z -> (0 <= r1)%Z -> (0 <= c2 <= 25)%Z -> (0 <= r2)%Z ->
  parseRange (encodeAddress c1 r1 ca1 ra1 ++ ":" ++ encodeAddress c2 r2 ca2 ra2) =
  Some (flat_map (fun col => map (fun r => cell_id col r) (zrange r1 r2)) (zrange c1 c2)).
Proof.
  intros H1 H2 H3 H4.
  destruct (encode_props c1 r1 ca1 ra1 H1 H2) as [Hh1 [_ Hc1]].
  destruct (encode_props c2 r2 ca2 ra2 H3 H4) as [Hh2 [_ Hc2]].
  assert (Hne1 : chars (encodeAddress c1 r1 ca1 ra1) <> []) by
    (destruct (chars (encodeAddress c1 r1 ca1 ra1)); [contradiction|discriminate]).
  assert (Hne2 : chars (encodeAddress c2 r2 ca2 ra2) <> []) by
    (destruct (chars (encodeAddress c2 r2 ca2 ra2)); [contradiction|discriminate]).
  assert (Hsp : split ":" (encodeAddress c1 r1 ca1 ra1 ++ ":" ++ encodeAddress c2 r2 ca2 ra2) =
                [encodeAddress c1 r1 ca1 ra1; encodeAddress c2 r2 ca2 ra2]).
  { unfold split. rewrite !chars_app. change (chars ":") with [":"%char]. cbn [app].
    rewrite split_chars_app by exact Hc1. rewrite split_chars_none by exact Hc2.
    cbn [map]. rewrite !string_of_list_ascii_of_string. reflexivity. }
  unfold parseRange. rewrite trim_range_enc by assumption.
  rewrite (string_nonempty (_ ++ _)) by (rewrite chars_app; destruct (chars (encodeAddress c1 r1 ca1 ra1)); [contradiction|discriminate]).
  cbn [orb]. rewrite Hsp. cbn [nth List.length Nat.ltb Nat.leb].
  rewrite !trim_enc by assumption. rewrite (string_nonempty _ Hne2).
  rewrite !parseReference_encode_single by assumption. cbn [colIndex row].
  rewrite (flat_map_Some range_cell_name cell_id), all_some_map_Some; [reflexivity|].
  intros x y Hx. apply in_zrange in Hx. apply range_cell_name_single. lia.
Qed.

(** Store lemmas. *)

Lemma obj_get_set_same k v o : obj_get k (obj_set k v o) = Some v.
Proof.
  unfold obj_get. induction o as [|[k' v'] t IH]; cbn [obj_set find fst].
  - rewrite String.eqb_refl. reflexivity.
  - destruct (String.eqb k' k) eqn:E; cbn [find fst].
    + rewrite String.eqb_refl. reflexivity.
    + rewrite E. exact IH.
Qed.

Lemma obj_get_set_other k k' v o : k' <> k -> obj_get k' (obj_set k v o) = obj_get k' o.
Proof.
  intros Hne. apply String.eqb_neq in Hne. rewrite String.eqb_sym in Hne.
  unfold obj_get. induction o as [|[k0 v0] t IH]; cbn [obj_set find fst].
  - rewrite Hne. reflexivity.
  - destruct (String.eqb k0 k) eqn:E; cbn [find fst].
    + apply String.eqb_eq in E. subst k0. rewrite Hne. reflexivity.
    + destruct (String.eqb k0 k'); [reflexivity|]. exact IH.
Qed.

Lemma obj_get_set k k' v o :
  obj_get k' (obj_set k v o) = if String.eqb k' k then Some v else obj_get k' o.
Proof.
  destruct (String.eqb k' k) eqn:E.
  - apply String.eqb_eq in E. subst. apply obj_get_set_same.
  - apply obj_get_set_other. now apply String.eqb_neq.
Qed.

Lemma fold_set_get (v : CellData) sel o k :
  obj_get k (fold_left (fun acc id => obj_set id v acc) sel o) =
  if existsb (String.eqb k) sel then Some v else obj_get k o.
Proof.
  revert o. induction sel as [|id sel IH]; intros o; [reflexivity|].
  cbn [fold_left existsb]. rewrite IH, obj_get_set.
  destruct (String.eqb k id), (existsb (String.eqb k) sel); reflexivity.
Qed.

Lemma existsb_eqb_In k l : existsb (String.eqb k) l = true <-> In k l.
Proof.
  rewrite existsb_exists. split.
  - intros [x [Hx E]]. apply String.eqb_eq in E. subst. exact Hx.
  - intros H. exists k. split; [exact H|apply String.eqb_refl].
Qed.

Lemma saveState_grid s :
  cells (saveState s) = cells s /\ rows (saveState s) = rows s /\ cols (saveState s) = cols s /\
  selectedCells (saveState s) = selectedCells s /\ selectedCell (saveState s) = selectedCell s /\
  clipboard (saveState s) = clipboard s.
Proof. repeat split. Qed.

Lemma tl_app_keep {A} (l r : list A) : l <> [] -> tl (l ++ r) = (tl l ++ r)%list.
Proof. destruct l; [contradiction|reflexivity]. Qed.

Lemma saveState_last1 s :
  exists pre, history (saveState s) = (pre ++ [snapshot s])%list /\
              historyIndex (saveState s) = (hlen (saveState s) - 1)%Z.
Proof.
  unfold saveState, hlen. cbv zeta.
  change {| h_cells := cells s; h_rows := rows s; h_cols := cols s |} with (snapshot s).
  cbn [history historyIndex set_history].
  set (nh := if (historyIndex s <? Z.of_nat (List.length (history s)) - 1)%Z
             then slice0 (historyIndex s + 1) (history s) else history s).
  destruct (MAX_HISTORY <? Z.of_nat (List.length (nh ++ [snapshot s])))%Z eqn:Hm.
  - destruct nh as [|a t].
    + cbn in Hm. discriminate Hm.
    + exists t. split; reflexivity.
  - exists nh. split; reflexivity.
Qed.

Lemma saveState_last2 s pre x :
  history s = (pre ++ [x])%list -> at_end s ->
  exists pre', history (saveState s) = (pre' ++ [x; snapshot s])%list /\
               historyIndex (saveState s) = (hlen (saveState s) - 1)%Z.
Proof.
  intros Hh Ha. unfold at_end, hlen in Ha.
  unfold saveState, hlen. cbv zeta.
  change {| h_cells := cells s; h_rows := rows s; h_cols := cols s |} with (snapshot s).
  cbn [history historyIndex set_history].
  replace (historyIndex s <? Z.of_nat (List.length (history s)) - 1)%Z with false
    by (symmetry; apply Z.ltb_ge; lia).
  rewrite Hh, <- app_assoc. cbn [app].
  destruct (MAX_HISTORY <? Z.of_nat (List.length (pre ++ [x; snapshot s])))%Z eqn:Hm.
  - destruct pre as [|a t].
    + cbn in Hm. discriminate Hm.
    + exists t. split; reflexivity.
  - exists pre. split; reflexivity.
Qed.

Lemma edit_history_last op s :
  is_edit op = true ->
  exists pre, history (step op s) = (pre ++ [snapshot s])%list /\ at_end (step op s).
Proof.
  intros He. pose proof (edit_at_end op s He) as A.
  destruct (edit_history op s He) as [[H1 _]|[H1 _]].
  - destruct (saveState_last1 s) as [pre [E _]]. exists pre. rewrite H1. split; assumption.
  - destruct (saveState_last1 (saveState s)) as [pre [E _]]. exists pre. rewrite H1, E.
    split; [reflexivity|assumption].
Qed.

Lemma two_edits_history e1 e2 s :
  is_edit e1 = true -> is_edit e2 = true -> e2 <> PasteSelection ->
  exists pre, history (step e2 (step e1 s)) = (pre ++ [snapshot s; snapshot (step e1 s)])%list /\
              at_end (step e2 (step e1 s)).
Proof.
  intros He1 He2 Hp2.
  destruct (edit_history_last e1 s He1) as [pre1 [E1 A1]].
  destruct (saveState_last2 (step e1 s) pre1 (snapshot s) E1 A1) as [pre [E I]].
  destruct (single_save e2 (step e1 s) He2 Hp2) as [H1 [H2 _]].
  exists pre. unfold at_end, hlen in *. rewrite H1, H2. split; assumption.
Qed.

Lemma undo_two_edits e1 e2 s :
  is_edit e1 = true -> is_edit e2 = true -> e2 <> PasteSelection ->
  snapshot (undo (step e2 (step e1 s))) = snapshot s /\
  snapshot (redo (undo (step e2 (step e1 s)))) = snapshot (step e1 s).
Proof.
  intros He1 He2 Hp2.
  destruct (two_edits_history e1 e2 s He1 He2 Hp2) as [pre [E A]].
  set (s2 := step e2 (step e1 s)) in *. clearbody s2.
  unfold at_end, hlen in A. rewrite E, length_app in A. cbn [List.length] in A.
  unfold undo. replace (historyIndex s2 <=? 0)%Z with false by (symmetry; apply Z.leb_gt; lia).
  unfold history_at. replace (historyIndex s2 - 1 <? 0)%Z with false by (symmetry; apply Z.ltb_ge; lia).
  rewrite E. replace (Z.to_nat (historyIndex s2 - 1)) with (List.length pre + 0)%nat by lia.
  rewrite nth_error_app2, Nat.add_sub_swap, Nat.sub_diag by lia. cbn [nth_error Nat.add].
  split; [reflexivity|].
  unfold redo. cbn [history historyIndex set_history set_grid].
  rewrite ?E, length_app. cbn [List.length].
  replace (Z.of_nat (List.length pre + 2) - 1 <=? historyIndex s2 - 1)%Z with false
    by (symmetry; apply Z.leb_gt; lia).
  unfold history_at. replace (historyIndex s2 - 1 + 1 <? 0)%Z with false by (symmetry; apply Z.ltb_ge; lia).
  replace (Z.to_nat (historyIndex s2 - 1 + 1)) with (List.length pre + 1)%nat by lia.
  rewrite nth_error_app2 by lia. replace (List.length pre + 1 - List.length pre)%nat with 1%nat by lia.
  reflexivity.
Qed.

Lemma first_step_index op : (historyIndex (step op initial_state) <= 0)%Z.
Proof.
  destruct op; cbn [step]; try (cbn; lia).
  - unfold importLoaded. destruct (import_parse content) as [[? ?] ?]. cbn. lia.
  - unfold clearSpreadsheet. destruct confirmed; cbn; lia.
Qed.

Lemma undo_first_step op : undo (step op initial_state) = step op initial_state.
Proof.
  unfold undo. pose proof (first_step_index op) as H.
  destruct (Z.leb_spec (historyIndex (step op initial_state)) 0); [reflexivity|lia].
Qed.

Lemma updateCell_get id d s k :
  obj_get k (cells (updateCell id d s)) =
  if String.eqb k id then Some (merge_cell (cell_or_empty id (cells s)) d) else obj_get k (cells s).
Proof. unfold updateCell. cbn [cells set_cells]. apply obj_get_set. Qed.

Lemma cutSelection_get s k :
  selectedCells s <> [] ->
  obj_get k (cells (cutSelection s)) =
  if existsb (String.eqb k) (selectedCells s) then Some createEmptyCell else obj_get k (cells s).
Proof.
  intros Hne. unfold cutSelection. cbv zeta.
  change (selectedCells (saveState s)) with (selectedCells s).
  change (cells (saveState s)) with (cells s).
  destruct (selectedCells s) as [|a t]; [contradiction|].
  cbn [cells set_clipboard]. apply fold_set_get.
Qed.

Lemma in_bounds_spec s c r :
  in_bounds s c r = true -> (0 <= c < cols s)%Z /\ (1 <= r <= rows s)%Z.
Proof.
  unfold in_bounds. intros H. apply negb_true_iff in H.
  repeat (apply orb_false_iff in H as [H ?]).
  repeat match goal with Hx : _ = false |- _ =>
    first [apply Z.ltb_ge in Hx | apply Z.leb_gt in Hx] end. lia.
Qed.

Lemma pasteCells_frame t s k :
  obj_get k (cells (pasteCells t s)) <> obj_get k (cells s) ->
  exists c r, k = cell_id c r /\ (0 <= c < cols s)%Z /\ (1 <= r <= rows s)%Z.
Proof.
  unfold pasteCells. cbv zeta. change (clipboard (saveState s)) with (clipboard s).
  destruct (clipboard s) as [clip|]; [|intros H; contradiction H; reflexivity].
  cbn [cells set_cells]. change (cells (saveState s)) with (cells s).
  match goal with |- context [fold_left ?f ?l ?a] =>
    assert (G : forall l0 acc,
             (forall k0, obj_get k0 acc <> obj_get k0 (cells s) ->
                exists c r, k0 = cell_id c r /\ (0 <= c < cols s)%Z /\ (1 <= r <= rows s)%Z) ->
             forall k0, obj_get k0 (fold_left f l0 acc) <> obj_get k0 (cells s) ->
                exists c r, k0 = cell_id c r /\ (0 <= c < cols s)%Z /\ (1 <= r <= rows s)%Z)
  end.
  { induction l0 as [|[cid cd] l0 IH]; intros acc Hacc; [exact Hacc|].
    cbn [fold_left]. apply IH. intros k0 Hk0.
    match type of Hk0 with context [if in_bounds ?st ?c ?r then _ else _] =>
      destruct (in_bounds st c r) eqn:Hb end; [|exact (Hacc k0 Hk0)].
    rewrite obj_get_set in Hk0.
    match type of Hk0 with context [String.eqb k0 ?key] =>
      destruct (String.eqb k0 key) eqn:Ek end; [|exact (Hacc k0 Hk0)].
    apply String.eqb_eq in Ek. apply in_bounds_spec in Hb. eexists _, _. split; [exact Ek|exact Hb]. }
  apply G. intros k0 H. contradiction H. reflexivity.
Qed.

Lemma fold_nested_set (v : CellData) (f : Z -> Z -> string) (cs rs : list Z) o :
  fold_left (fun acc c => fold_left (fun acc r => obj_set (f c r) v acc) rs acc) cs o =
  fold_left (fun acc id => obj_set id v acc) (flat_map (fun c => map (fun r => f c r) rs) cs) o.
Proof.
  revert o. induction cs as [|c cs IH]; intros o; [reflexivity|].
  cbn [fold_left flat_map]. rewrite fold_left_app, IH. f_equal.
  clear. revert o. induction rs as [|r rs IH]; intros o; [reflexivity|]. cbn. apply IH.
Qed.

Lemma clearSpreadsheet_get s k :
  obj_get k (cells (clearSpreadsheet true s)) =
  if existsb (String.eqb k)
       (flat_map (fun c => map (fun r => cell_id c r) (zrange 1 (rows s))) (zrange 0 (cols s - 1)))
  then Some createEmptyCell else None.
Proof.
  unfold clearSpreadsheet. cbn [negb]. cbv zeta. cbn [cells set_cells].
  change (rows (saveState s)) with (rows s). change (cols (saveState s)) with (cols s).
  rewrite (fold_nested_set createEmptyCell cell_id), fold_set_get. reflexivity.
Qed.

Lemma in_grid (cs rs : list Z) k :
  In k (flat_map (fun c => map (fun r => cell_id c r) rs) cs) <->
  exists c r, k = cell_id c r /\ In c cs /\ In r rs.
Proof.
  rewrite in_flat_map. split.
  - intros [c0 [Hc Hk]]. apply in_map_iff in Hk as [r0 [E Hr]]. exists c0, r0. auto.
  - intros [c0 [r0 [E [Hc Hr]]]]. exists c0. split; [exact Hc|]. apply in_map_iff. eauto.
Qed.

Lemma pasteSelection_fill s clip target id0 cd k :
  clipboard s = Some clip -> selectedCell s = Some target -> target <> "" ->
  clip_data clip = Some [(id0, cd)] -> (1 < List.length (selectedCells s))%nat ->
  obj_get k (cells (pasteSelection s)) =
  if existsb (String.eqb k) (selectedCells s) then Some (copy_of cd) else obj_get k (cells s).
Proof.
  intros Hc Hs Ht Hd Hl. unfold pasteSelection. cbv zeta.
  change (clipboard (saveState s)) with (clipboard s).
  change (selectedCell (saveState s)) with (selectedCell s).
  rewrite Hc, Hs. apply String.eqb_neq in Ht. rewrite Ht, Hd.
  change (selectedCells (saveState s)) with (selectedCells s).
  replace (1 <? List.length (selectedCells s)) with true by (symmetry; apply Nat.ltb_lt; exact Hl).
  cbn [List.length Nat.eqb andb hd snd cells set_cells].
  apply fold_set_get.
Qed.

Lemma calculatePasteOffset_ids (p0 : Z * Z) (ps : list (Z * Z)) tc tr :
  Forall (fun p => 0 <= fst p /\ 0 <= snd p)%Z (p0 :: ps) -> (0 <= tc)%Z -> (0 <= tr)%Z ->
  calculatePasteOffset (map (fun p => cell_id (fst p) (snd p)) (p0 :: ps)) (cell_id tc tr) =
  Some (tr - fold_left Z.min (map snd ps) (snd p0), tc - fold_left Z.min (map fst ps) (fst p0))%Z.
Proof.
  intros Hall Htc Htr. unfold calculatePasteOffset.
  rewrite map_map.
  rewrite (map_ext_in _ (fun p => Some (snd p, indexToColumnLetter (fst p)))).
  2: { intros p Hp. rewrite Forall_forall in Hall. destruct (Hall p Hp).
       apply cell_id_parse; assumption. }
  rewrite <- (map_map (fun p => (snd p, indexToColumnLetter (fst p))) Some), all_some_map_Some.
  cbn [obind]. rewrite !map_map. cbn [fst snd].
  rewrite (map_ext_in (fun x => columnLetterToIndex (indexToColumnLetter (fst x))) fst).
  2: { intros p Hp. rewrite Forall_forall in Hall. destruct (Hall p Hp).
       apply col_round_trip; assumption. }
  rewrite cell_id_parse by assumption. cbn [map tl hd obind].
  rewrite col_round_trip by assumption.
  rewrite Forall_cons_iff in Hall. destruct Hall as [[H0 H1] _].
  reflexivity.
Qed.

Lemma csv_plain l cur acc rest :
  forallb (fun c => negb (Ascii.eqb c ",") && negb (Ascii.eqb c dquote)) l = true ->
  csv_fields (l ++ rest) acc cur false = csv_fields rest acc (cur ++ l) false.
Proof.
  revert cur. induction l as [|a l IH]; intros cur H.
  - rewrite app_nil_r. reflexivity.
  - cbn [forallb] in H. apply andb_prop in H as [Ha Hl]. apply andb_prop in Ha as [H1 H2].
    apply negb_true_iff in H1, H2. cbn [app csv_fields]. rewrite H2, H1. cbn [andb negb].
    rewrite (IH _ Hl), <- app_assoc. reflexivity.
Qed.

Lemma csv_open t acc cur : csv_fields (dquote :: t) acc cur false = csv_fields t acc cur true.
Proof. destruct t; reflexivity. Qed.

Lemma csv_quoted l cur acc rest :
  match rest with "," %char :: _ | [] => True | _ => False end ->
  csv_fields (csv_escape l ++ dquote :: rest) acc cur true = csv_fields rest acc (cur ++ l) false.
Proof.
  intros Hr. revert cur. induction l as [|a l IH]; intros cur.
  - rewrite app_nil_r. cbn [csv_escape flat_map app].
    destruct rest as [|c r]; [reflexivity|].
    cbn [csv_fields]. rewrite Ascii.eqb_refl.
    ascii_cases c; try contradiction Hr; reflexivity.
  - cbn [csv_escape flat_map]. fold (csv_escape l).
    destruct (Ascii.eqb a dquote) eqn:Ea.
    + apply Ascii.eqb_eq in Ea. subst a. cbn [app csv_fields]. rewrite Ascii.eqb_refl. cbn [andb].
      rewrite IH, <- app_assoc. reflexivity.
    + cbn [app csv_fields]. rewrite Ea. cbn [andb negb]. rewrite andb_false_r.
      rewrite IH, <- app_assoc. reflexivity.
Qed.

Lemma csv_field v acc rest :
  match rest with "," %char :: _ | [] => True | _ => False end ->
  csv_fields (chars (formatValue v) ++ rest) acc [] false = csv_fields rest acc (chars v) false.
Proof.
  intros Hr. unfold formatValue.
  destruct (existsb (fun c => Ascii.eqb c ",") (chars v) || existsb (fun c => Ascii.eqb c dquote) (chars v)) eqn:E.
  - unfold chars at 1. rewrite list_ascii_of_string_of_list_ascii. cbn [app].
    rewrite csv_open, <- app_assoc. cbn [app]. apply csv_quoted. exact Hr.
  - apply orb_false_iff in E as [E1 E2]. apply csv_plain.
    apply forallb_forall. intros c Hc. apply andb_true_intro. split; apply negb_true_iff.
    + destruct (Ascii.eqb c ",") eqn:Ec; [|reflexivity].
      rewrite <- E1. symmetry. apply existsb_exists. eauto.
    + destruct (Ascii.eqb c dquote) eqn:Ec; [|reflexivity].
      rewrite <- E2. symmetry. apply existsb_exists. eauto.
Qed.

Lemma csv_line vs acc :
  vs <> [] -> csv_fields (chars (join "," (map formatValue vs))) acc [] false = (acc ++ vs)%list.
Proof.
  revert acc. induction vs as [|v vs IH]; intros acc Hne; [contradiction|].
  destruct vs as [|v2 vs].
  - cbn [map join]. rewrite <- (app_nil_r (chars (formatValue v))), csv_field by exact I.
    cbn [csv_fields]. rewrite string_of_list_ascii_of_string. reflexivity.
  - cbn [map join]. fold (map formatValue vs). rewrite !chars_app.
    change (chars ",") with [","%char]. cbn [app]. rewrite csv_field by exact I.
    cbn [csv_fields Ascii.eqb]. cbn [andb negb].
    change (Ascii.eqb "," dquote) with false. cbn [andb negb].
    rewrite string_of_list_ascii_of_string.
    change (join "," (formatValue v2 :: map formatValue vs)) with (join "," (map formatValue (v2 :: vs))).
    rewrite IH by discriminate. rewrite <- app_assoc. reflexivity.
Qed.

Lemma import_parse_writes content :
  fst (fst (import_parse content)) = set_all (import_writes content) [].
Proof.
  unfold import_parse, import_writes, set_all. cbv zeta.
  generalize (combine (zrange 0 (Z.of_nat (List.length (split (ascii_of_nat 10) content)) - 1))
                      (split (ascii_of_nat 10) content)) as P.
  assert (Inner : forall (rowIndex : Z) (vs : list (Z * string)) acc mc,
    fst (fold_left (fun '(acc, mc) '(colIndex, v) =>
                      (obj_set (cell_id colIndex (rowIndex + 1)) (import_cell v) acc, Z.max mc colIndex))
                   vs (acc, mc)) =
    fold_left (fun acc kv => obj_set (fst kv) (snd kv) acc)
              (map (fun '(colIndex, v) => (cell_id colIndex (rowIndex + 1), import_cell v)) vs) acc).
  { intros rowIndex vs. induction vs as [|[ci v] vs IH]; intros acc mc; [reflexivity|]. cbn. apply IH. }
  intros P.
  match goal with |- fst (fst (fold_left ?F P _)) = fold_left ?S (flat_map ?G P) _ =>
    assert (Outer : forall P' acc0 mr0 mc0,
              fst (fst (fold_left F P' (acc0, mr0, mc0))) = fold_left S (flat_map G P') acc0) end.
  2: apply Outer.
  clear P. induction P' as [|[ri line] P IH]; intros acc0 mr0 mc0; [reflexivity|].
  cbn [fold_left flat_map]. destruct (String.eqb (trim line) "").
  - cbn [app]. apply IH.
  - rewrite fold_left_app, <- (Inner ri _ acc0 mc0).
    destruct (fold_left _ _ (acc0, mc0)) as [acc' mc'] eqn:Ex. cbn [fst]. apply IH.
Qed.

Lemma set_all_notin ws o k :
  (forall v', ~ In (k, v') ws) -> obj_get k (set_all ws o) = obj_get k o.
Proof.
  unfold set_all. revert o. induction ws as [|[k1 v1] ws IH]; intros o Hn; [reflexivity|].
  cbn [fold_left fst snd]. rewrite IH by (intros v' H; apply (Hn v'); right; exact H).
  apply obj_get_set_other. intros ->. apply (Hn v1). left; reflexivity.
Qed.

Lemma set_all_in ws o k v :
  (forall v', In (k, v') ws -> v' = v) -> In (k, v) ws -> obj_get k (set_all ws o) = Some v.
Proof.
  revert o. induction ws as [|[k0 v0] ws IH]; intros o Hall Hin; [destruct Hin|].
  change (set_all ((k0, v0) :: ws) o) with (set_all ws (obj_set k0 v0 o)).
  destruct (existsb (String.eqb k) (map fst ws)) eqn:Ek.
  - apply existsb_eqb_In, in_map_iff in Ek as [[k2 v2] [E Hw]]. cbn [fst] in E. subst k2.
    assert (v2 = v) by (apply Hall; right; exact Hw). subst v2.
    apply IH; [intros v' H; apply Hall; right; exact H|exact Hw].
  - rewrite set_all_notin.
    + destruct Hin as [E|E].
      * injection E as -> ->. apply obj_get_set_same.
      * exfalso. assert (In k (map fst ws)) by (apply in_map_iff; exists (k, v); auto).
        apply existsb_eqb_In in H. congruence.
    + intros v' H. assert (In k (map fst ws)) by (apply in_map_iff; exists (k, v'); auto).
      apply existsb_eqb_In in H0. congruence.
Qed.

Lemma zrange_0_len {A} (l : list A) :
  zrange 0 (Z.of_nat (List.length l) - 1) = map Z.of_nat (seq 0 (List.length l)).
Proof.
  unfold zrange. replace (Z.to_nat (Z.of_nat (List.length l) - 1 - 0 + 1)) with (List.length l) by lia.
  apply map_ext. intros; lia.
Qed.

Lemma in_combine_seq {A} (l : list A) s i x :
  In (i, x) (combine (map Z.of_nat (seq s (List.length l))) l) <->
  exists j, i = Z.of_nat (s + j) /\ nth_error l j = Some x.
Proof.
  revert s. induction l as [|a l IH]; intros s.
  - cbn. split; [intros []|intros [j [_ H]]; destruct j; discriminate H].
  - cbn [List.length seq map combine In]. rewrite IH. split.
    + intros [E|[j [Ei Ej]]].
      * injection E as <- <-. exists 0%nat. split; [f_equal; lia|reflexivity].
      * exists (S j). split; [rewrite Ei; f_equal; lia|exact Ej].
    + intros [[|j] [Ei Ej]].
      * left. cbn in Ej. injection Ej as <-. rewrite Ei. f_equal. f_equal. lia.
      * right. exists j. split; [rewrite Ei; f_equal; lia|exact Ej].
Qed.

Lemma in_combine_index {A} (l : list A) i x :
  In (i, x) (combine (zrange 0 (Z.of_nat (List.length l) - 1)) l) <->
  exists j, i = Z.of_nat j /\ nth_error l j = Some x.
Proof. rewrite zrange_0_len, in_combine_seq. reflexivity. Qed.

Lemma nth_error_zrange a b j :
  (j < Z.to_nat (b - a + 1))%nat -> nth_error (zrange a b) j = Some (a + Z.of_nat j)%Z.
Proof.
  intros H. unfold zrange. rewrite nth_error_map, nth_error_seq.
  destruct (Nat.ltb_spec j (Z.to_nat (b - a + 1))); [reflexivity|lia].
Qed.

Lemma nth_error_zrange_inv a b j x :
  nth_error (zrange a b) j = Some x -> x = (a + Z.of_nat j)%Z /\ (j < Z.to_nat (b - a + 1))%nat.
Proof.
  unfold zrange. rewrite nth_error_map, nth_error_seq.
  destruct (Nat.ltb_spec j (Z.to_nat (b - a + 1))); cbn; intros H'; [|discriminate H'].
  injection H' as <-. split; [lia|assumption].
Qed.

Lemma chars_fold_app (f : Z -> string) rows acc :
  chars (fold_left (fun csv row => csv ++ f row) rows acc) = (chars acc ++ flat_map (fun r => chars (f r)) rows)%list.
Proof.
  revert acc. induction rows as [|r rows IH]; intros acc; cbn [fold_left flat_map].
  - rewrite app_nil_r. reflexivity.
  - rewrite IH, chars_app, app_assoc. reflexivity.
Qed.

Lemma split_lines (g : Z -> string) rows :
  (forall r, In r rows -> forallb (fun x => negb (Ascii.eqb x (ascii_of_nat 10))) (chars (g r)) = true) ->
  split_chars (ascii_of_nat 10) (flat_map (fun r => chars (g r ++ String (ascii_of_nat 10) ""))%string rows) =
  (map (fun r => chars (g r)) rows ++ [[]])%list.
Proof.
  induction rows as [|r rows IH]; intros H; [reflexivity|].
  cbn [flat_map map]. rewrite chars_app. change (chars (String (ascii_of_nat 10) "")) with [ascii_of_nat 10].
  rewrite <- app_assoc. cbn [app]. rewrite split_chars_app by (apply H; left; reflexivity).
  rewrite IH by (intros; apply H; right; assumption). reflexivity.
Qed.

Lemma trim_empty_ws s : trim s = "" -> forallb is_ws (chars s) = true.
Proof.
  unfold trim. intros H. apply (f_equal chars) in H. unfold chars at 1 in H.
  rewrite list_ascii_of_string_of_list_ascii in H. cbn in H.
  apply (f_equal (@rev ascii)) in H. rewrite rev_involutive in H. cbn in H.
  assert (D : forall l, drop_ws l = [] -> forallb is_ws l = true).
  { induction l as [|a t IH]; [reflexivity|]. cbn. destruct (is_ws a); [exact IH|discriminate]. }
  assert (D2 : forall l, forallb is_ws (drop_ws l) = true -> drop_ws l = []).
  { induction l as [|a t IH]; [reflexivity|]. cbn. destruct (is_ws a) eqn:E; [exact IH|].
    cbn. rewrite E. discriminate. }
  apply D in H. rewrite forallb_rev in H. apply D, D2. exact H.
Qed.

Lemma export_bounds_spec o :
  (0 <= fst (export_bounds o))%Z /\ (0 <= snd (export_bounds o))%Z /\
  forall kv, In kv o -> (match_row (fst kv) <= fst (export_bounds o))%Z /\
                        (col_of (fst kv) <= snd (export_bounds o))%Z.
Proof.
  unfold export_bounds.
  match goal with |- context [fold_left ?F o (0%Z, 0%Z)] =>
    assert (G : forall o' a b,
      (a <= fst (fold_left F o' (a, b)))%Z /\ (b <= snd (fold_left F o' (a, b)))%Z /\
      forall kv, In kv o' -> (match_row (fst kv) <= fst (fold_left F o' (a, b)))%Z /\
                             (col_of (fst kv) <= snd (fold_left F o' (a, b)))%Z) end.
  { induction o' as [|[k v] o' IH]; intros a b.
    - cbn. split; [lia|split; [lia|intros _ []]].
    - cbn [fold_left].
      match goal with |- context [fold_left _ o' (?a', ?b')] =>
        destruct (IH a' b') as [H1 [H2 H3]] end.
      unfold col_of.
      destruct (Z.ltb_spec a (match_row k)), (Z.ltb_spec b (columnLetterToIndex (match_col k)));
        (split; [lia|split; [lia|]]); intros kv [E|E]; try (apply H3; exact E);
        subst kv; cbn [fst]; lia. }
  destruct (G o 0%Z 0%Z) as [H1 [H2 H3]]. auto.
Qed.

Lemma formatValue_no_nl v :
  forallb (fun x => negb (Ascii.eqb x (ascii_of_nat 10))) (chars v) = true ->
  forallb (fun x => negb (Ascii.eqb x (ascii_of_nat 10))) (chars (formatValue v)) = true.
Proof.
  intros H. unfold formatValue. destruct (_ || _); [|exact H].
  unfold chars at 1. rewrite list_ascii_of_string_of_list_ascii. cbn [forallb].
  rewrite forallb_app. cbn [forallb]. change (Ascii.eqb dquote (ascii_of_nat 10)) with false.
  cbn [negb andb]. rewrite andb_true_r.
  unfold csv_escape. induction (chars v) as [|a t IH]; [reflexivity|].
  cbn [flat_map forallb] in H |- *. apply andb_prop in H as [Ha Ht].
  rewrite forallb_app, (IH Ht), andb_true_r.
  destruct (Ascii.eqb a dquote) eqn:E; [reflexivity|]. cbn [forallb]. rewrite Ha. reflexivity.
Qed.

Lemma join_no_nl vs :
  Forall (fun v => forallb (fun x => negb (Ascii.eqb x (ascii_of_nat 10))) (chars v) = true) vs ->
  forallb (fun x => negb (Ascii.eqb x (ascii_of_nat 10))) (chars (join "," vs)) = true.
Proof.
  induction vs as [|v vs IH]; intros H; [reflexivity|].
  inversion H as [|? ? Hv Hvs]; subst.
  destruct vs as [|v2 vs]; [exact Hv|].
  change (join "," (v :: v2 :: vs)) with (v ++ "," ++ join "," (v2 :: vs)).
  rewrite !chars_app, !forallb_app, Hv, (IH Hvs). reflexivity.
Qed.

Lemma obj_get_In k o c : obj_get k o = Some c -> In (k, c) o.
Proof.
  unfold obj_get. destruct (find (fun kv => String.eqb (fst kv) k) o) as [[k' c']|] eqn:E;
    [|discriminate]. intros H. injection H as <-.
  pose proof (find_some _ _ E) as [Hin Hk]. cbn in Hk. apply String.eqb_eq in Hk. subst. exact Hin.
Qed.

Lemma getCellValue_P (P : string -> Prop) o k :
  Forall (fun kv => P (value (snd kv))) o -> P "" -> P (getCellValue o k).
Proof.
  intros H He. unfold getCellValue. destruct (obj_get k o) as [c|] eqn:E; [|exact He].
  apply obj_get_In in E. rewrite Forall_forall in H. exact (H _ E).
Qed.

Lemma content_lines o :
  Forall (fun kv => no_nl (value (snd kv))) o ->
  split (ascii_of_nat 10) (exportToCSV_content o) =
  (map (export_row o (snd (export_bounds o))) (zrange 1 (fst (export_bounds o))) ++ [""])%list.
Proof.
  intros Hyp. unfold exportToCSV_content. destruct (export_bounds o) as [mr mc]. cbn [fst snd].
  unfold split.
  rewrite (chars_fold_app (fun row => export_row o mc row ++ String (ascii_of_nat 10) "")).
  change (chars "") with (@nil ascii). rewrite app_nil_l.
  rewrite split_lines.
  - rewrite map_app, map_map. cbn [map]. f_equal. apply map_ext. intros r.
    apply string_of_list_ascii_of_string.
  - intros r _. unfold export_row. apply join_no_nl. apply Forall_forall. intros v Hv.
    apply in_map_iff in Hv as [col [<- _]]. apply formatValue_no_nl.
    apply (getCellValue_P no_nl); [exact Hyp|reflexivity].
Qed.

Lemma blank_row vals :
  Forall (fun v => forallb is_ws (chars v) = true -> v = "") vals ->
  forallb is_ws (chars (join "," (map formatValue vals))) = true -> forall v, In v vals -> v = "".
Proof.
  intros Hp Hb v Hv. destruct vals as [|v0 [|v1 vs]]; [destruct Hv| |].
  - destruct Hv as [<-|[]]. inversion Hp as [|? ? Hv0 _]; subst. apply Hv0.
    cbn [map join] in Hb. unfold formatValue in Hb. destruct (_ || _).
    + unfold chars at 1 in Hb. rewrite list_ascii_of_string_of_list_ascii in Hb. discriminate Hb.
    + exact Hb.
  - exfalso. cbn [map join] in Hb. rewrite !chars_app, !forallb_app in Hb.
    change (forallb is_ws (chars ",")) with false in Hb. rewrite andb_false_r in Hb. discriminate Hb.
Qed.

Lemma export_row_values o mc r :
  (0 <= mc)%Z ->
  csv_fields (chars (export_row o mc r)) [] [] false =
  map (fun col => getCellValue o (cell_id col r)) (zrange 0 mc).
Proof.
  intros Hmc. unfold export_row. rewrite <- (map_map (fun col => getCellValue o (cell_id col r)) formatValue).
  rewrite csv_line; [reflexivity|].
  intros E. apply (f_equal (@List.length _)) in E. rewrite length_map, length_zrange in E. cbn in E. lia.
Qed.

Lemma export_writes_fw o :
  Forall (fun kv => csv_value_ok (value (snd kv))) o ->
  forall k cd, In (k, cd) (import_writes (exportToCSV_content o)) ->
  exists c r, k = cell_id c r /\ (0 <= c <= snd (export_bounds o))%Z /\
              (1 <= r <= fst (export_bounds o))%Z /\ cd = import_cell (getCellValue o (cell_id c r)).
Proof.
  intros Hyp k cd H. destruct (export_bounds_spec o) as [Hmr [Hmc _]].
  unfold import_writes in H. cbv zeta in H.
  rewrite content_lines in H by (eapply Forall_impl; [|exact Hyp]; intros kv [? _]; assumption).
  set (mr := fst (export_bounds o)) in *. set (mc := snd (export_bounds o)) in *.
  apply in_flat_map in H as [[i line] [Hp Hw]]. apply in_combine_index in Hp as [j [-> Hj]].
  destruct (Nat.ltb_spec j (List.length (map (export_row o mc) (zrange 1 mr)))) as [Hlt|Hge].
  - rewrite nth_error_app1 in Hj by exact Hlt. rewrite nth_error_map in Hj.
    destruct (nth_error (zrange 1 mr) j) as [z|] eqn:Ez; [|discriminate Hj].
    cbn in Hj. injection Hj as <-. apply nth_error_zrange_inv in Ez as [-> Hjb].
    destruct (String.eqb (trim (export_row o mc (1 + Z.of_nat j))) "") eqn:Eb; [destruct Hw|].
    rewrite export_row_values in Hw by exact Hmc.
    apply in_map_iff in Hw as [[ci v] [E Hc]]. cbv beta iota in E. injection E as <- <-.
    apply in_combine_index in Hc as [j' [-> Hj']]. rewrite nth_error_map in Hj'.
    destruct (nth_error (zrange 0 mc) j') as [col|] eqn:Ez'; [|discriminate Hj'].
    cbn in Hj'. injection Hj' as <-. apply nth_error_zrange_inv in Ez' as [-> Hjb'].
    exists (0 + Z.of_nat j')%Z, (1 + Z.of_nat j)%Z. repeat split; try lia.
    f_equal; lia.
  - rewrite nth_error_app2 in Hj by exact Hge.
    destruct (j - List.length (map (export_row o mc) (zrange 1 mr)))%nat as [|n]; cbn in Hj.
    + injection Hj as <-. cbn in Hw. destruct Hw.
    + destruct n; discriminate Hj.
Qed.

Lemma export_writes_bw o c r :
  Forall (fun kv => csv_value_ok (value (snd kv))) o ->
  (0 <= c <= snd (export_bounds o))%Z -> (1 <= r <= fst (export_bounds o))%Z ->
  getCellValue o (cell_id c r) <> "" ->
  In (cell_id c r, import_cell (getCellValue o (cell_id c r))) (import_writes (exportToCSV_content o)).
Proof.
  intros Hyp Hc Hr Hne. destruct (export_bounds_spec o) as [Hmr [Hmc _]].
  unfold import_writes. cbv zeta.
  rewrite content_lines by (eapply Forall_impl; [|exact Hyp]; intros kv [? _]; assumption).
  set (mr := fst (export_bounds o)) in *. set (mc := snd (export_bounds o)) in *.
  apply in_flat_map. exists (Z.of_nat (Z.to_nat (r - 1)), export_row o mc r). split.
  - apply in_combine_index. exists (Z.to_nat (r - 1)). split; [reflexivity|].
    rewrite nth_error_app1 by (rewrite length_map, length_zrange; lia).
    rewrite nth_error_map, nth_error_zrange by lia. cbn [option_map]. f_equal. f_equal. lia.
  - destruct (String.eqb (trim (export_row o mc r)) "") eqn:Eb.
    + exfalso. apply String.eqb_eq, trim_empty_ws in Eb. apply Hne.
      unfold export_row in Eb.
      rewrite <- (map_map (fun col => getCellValue o (cell_id col r)) formatValue) in Eb.
      refine (blank_row _ _ Eb _ _).
      * apply Forall_forall. intros v Hv. apply in_map_iff in Hv as [col [<- _]].
        apply (getCellValue_P (fun v => forallb is_ws (chars v) = true -> v = "")); [|intros; reflexivity].
        eapply Forall_impl; [|exact Hyp]. intros kv [_ [_ ?]]; assumption.
      * apply in_map_iff. exists c. split; [reflexivity|]. apply in_zrange. lia.
    + rewrite export_row_values by exact Hmc. apply in_map_iff.
      exists (c, getCellValue o (cell_id c r)). split.
      * cbv beta iota. do 3 f_equal. lia.
      * apply in_combine_index. exists (Z.to_nat c). split; [lia|].
        rewrite nth_error_map, nth_error_zrange by lia. cbn [option_map]. do 4 f_equal. lia.
Qed.

Lemma import_cell_value v : startsWith v "=" = false -> value (import_cell v) = v.
Proof. intros H. unfold import_cell. rewrite H. reflexivity. Qed.

Lemma csv_round_trip_aux o c r :
  Forall (fun kv => csv_value_ok (value (snd kv))) o -> (0 <= c)%Z -> (1 <= r)%Z ->
  getCellValue (fst (fst (import_parse (exportToCSV_content o)))) (cell_id c r) =
  getCellValue o (cell_id c r).
Proof.
  intros Hyp Hc Hr. rewrite import_parse_writes.
  set (W := import_writes (exportToCSV_content o)).
  set (v := getCellValue o (cell_id c r)).
  assert (Hv : csv_value_ok v) by (apply getCellValue_P; [exact Hyp|repeat split; intros; reflexivity]).
  assert (Uniq : forall cd, In (cell_id c r, cd) W -> cd = import_cell v).
  { intros cd H. destruct (export_writes_fw o Hyp _ _ H) as [c' [r' [E [Hc' [Hr' ->]]]]].
    apply cell_id_inj in E as [<- <-]; try lia. reflexivity. }
  unfold getCellValue at 1.
  destruct (existsb (String.eqb (cell_id c r)) (map fst W)) eqn:Ek.
  - apply existsb_eqb_In, in_map_iff in Ek as [[k cd] [Ek Hin]]. cbn [fst] in Ek. subst k.
    rewrite (Uniq cd Hin) in Hin. rewrite (set_all_in W [] _ (import_cell v) Uniq Hin).
    apply import_cell_value. apply Hv.
  - rewrite set_all_notin.
    + cbn. destruct (String.eqb v "") eqn:Ev; [symmetry; apply String.eqb_eq; exact Ev|].
      exfalso. apply String.eqb_neq in Ev.
      assert (Hb : (c <= snd (export_bounds o))%Z /\ (r <= fst (export_bounds o))%Z).
      { destruct (obj_get (cell_id c r) o) as [cd|] eqn:Eo.
        - apply obj_get_In in Eo. destruct (export_bounds_spec o) as [_ [_ B]].
          destruct (B _ Eo) as [B1 B2]. cbn [fst] in B1, B2. unfold col_of in B2.
          rewrite match_row_cell_id in B1 by lia.
          rewrite match_col_cell_id, col_round_trip in B2 by lia. lia.
        - exfalso. apply Ev. unfold v, getCellValue. rewrite Eo. reflexivity. }
      pose proof (export_writes_bw o c r Hyp ltac:(lia) ltac:(lia) Ev) as Hin.
      assert (In (cell_id c r) (map fst W)) by (apply in_map_iff; eexists; split; [|exact Hin]; reflexivity).
      apply existsb_eqb_In in H. fold W in Ek. congruence.
    + intros cd Hin. assert (In (cell_id c r) (map fst W)) by (apply in_map_iff; eexists; split; [|exact Hin]; reflexivity).
      apply existsb_eqb_In in H. congruence.
Qed.

Lemma In_obj_set kv k v o : In kv (obj_set k v o) -> kv = (k, v) \/ In kv o.
Proof.
  induction o as [|[k' v'] t IH]; cbn [obj_set].
  - intros [E|[]]. left. symmetry. exact E.
  - destruct (String.eqb k' k).
    + intros [E|E]; [left; symmetry; exact E|right; right; exact E].
    + intros [E|E]; [right; left; exact E|]. destruct (IH E) as [?|?]; [left|right; right]; assumption.
Qed.

Lemma In_set_all kv ws o : In kv (set_all ws o) -> In kv ws \/ In kv o.
Proof.
  unfold set_all. revert o. induction ws as [|w ws IH]; intros o H; [right; exact H|].
  cbn [fold_left] in H. destruct (IH _ H) as [H1|H1]; [left; right; exact H1|].
  apply In_obj_set in H1 as [->|H1]; [left; left; destruct w; reflexivity|right; exact H1].
Qed.

Lemma importEvaluate_plain u s :
  Forall (fun kv => startsWith (formula (snd kv)) "=" = false) (cells s) ->
  importEvaluate u s = set_cells (cells s) s.
Proof.
  intros H. unfold importEvaluate. f_equal.
  generalize (cells s) at 1. intros l. induction l as [|[id cd] l IH]; [reflexivity|].
  cbn [fold_left].
  assert (Hf : startsWith (formula (cell_or_empty id (cells s))) "=" = false).
  { unfold cell_or_empty. destruct (obj_get id (cells s)) as [c|] eqn:E; [|reflexivity].
    apply obj_get_In in E. rewrite Forall_forall in H. exact (H _ E). }
  rewrite Hf. exact IH.
Qed.

Lemma imported_plain o :
  Forall (fun kv => csv_value_ok (value (snd kv))) o ->
  Forall (fun kv => startsWith (formula (snd kv)) "=" = false)
         (fst (fst (import_parse (exportToCSV_content o)))).
Proof.
  intros Hyp. rewrite import_parse_writes. apply Forall_forall. intros [k cd] Hin.
  apply In_set_all in Hin as [Hin|[]].
  destruct (export_writes_fw o Hyp _ _ Hin) as [c [r [_ [_ [_ ->]]]]].
  unfold import_cell. cbn [snd].
  assert (Hv : csv_value_ok (getCellValue o (cell_id c r)))
    by (apply getCellValue_P; [exact Hyp|repeat split; intros; reflexivity]).
  destruct Hv as [_ [Hs _]]. rewrite Hs. reflexivity.
Qed.

Lemma csv_reimport u s c r :
  Forall (fun kv => csv_value_ok (value (snd kv))) (cells s) -> (0 <= c)%Z -> (1 <= r)%Z ->
  getCellValue (cells (run [ImportFromCSV; ImportLoaded (exportToCSV_content (cells s)); ImportEvaluate u] s))
               (cell_id c r) =
  getCellValue (cells s) (cell_id c r).
Proof.
  intros Hyp Hc Hr. cbn [run fold_left step].
  set (s1 := importLoaded (exportToCSV_content (cells s)) (saveState s)).
  assert (E1 : cells s1 = fst (fst (import_parse (exportToCSV_content (cells s))))).
  { unfold s1, importLoaded. destruct (import_parse _) as [[nc mr] mc]. reflexivity. }
  rewrite importEvaluate_plain by (rewrite E1; apply imported_plain; exact Hyp).
  cbn [cells set_cells]. rewrite E1. apply csv_round_trip_aux; assumption.
Qed.

Lemma upper_chars_idem l l' : upper_chars l = Some l' -> upper_chars l' = Some l'.
Proof.
  revert l'. induction l as [|c t IH]; intros l' H.
  - injection H as <-. reflexivity.
  - cbn [upper_chars] in H. destruct (upper_chars t) as [t'|] eqn:Et; [|discriminate H].
    specialize (IH t' eq_refl).
    ascii_cases c; cbn in H; try discriminate H; injection H as <-;
      cbn [upper_chars]; rewrite ?IH; reflexivity.
Qed.

Lemma substring_all f : substring 0 (String.length f) f = f.
Proof. induction f as [|a f IH]; [reflexivity|]. cbn. rewrite IH. reflexivity. Qed.

Lemma eq_formula_parts f : startsWith ("=" ++ f) "=" = true /\ substring1 ("=" ++ f) = f.
Proof.
  split; [unfold startsWith; cbn; destruct (ascii_dec "=" "="); [destruct f; reflexivity|congruence]|]. unfold substring1. cbn [String.length append].
  replace (S (String.length f) - 1) with (String.length f) by lia. cbn [substring].
  apply substring_all.
Qed.

Lemma formula_case_insensitive f f' g :
  toUpperCase f = Some f' ->
  existsb (startsWith f') formula_prefixes = true ->
  evaluateFormula ("=" ++ f) g = evaluateFormula ("=" ++ f') g.
Proof.
  intros Hu Hp.
  assert (Hu' : toUpperCase f' = Some f').
  { unfold toUpperCase in *. destruct (upper_chars (chars f)) as [l|] eqn:E; [|discriminate Hu].
    cbn in Hu. injection Hu as <-. unfold chars at 1. rewrite list_ascii_of_string_of_list_ascii.
    rewrite (upper_chars_idem _ _ E). reflexivity. }
  destruct (eq_formula_parts f) as [S1 T1]. destruct (eq_formula_parts f') as [S2 T2].
  unfold evaluateFormula. rewrite S1, S2, T1, T2, Hu, Hu'. cbn [negb obind].
  cbn [existsb formula_prefixes] in Hp.
  repeat match goal with |- context [if startsWith f' ?p then _ else _] =>
    destruct (startsWith f' p); [reflexivity|] end.
  discriminate Hp.
Qed.

Lemma drag_select a b s :
  a <> "" ->
  selectedCells (handleDrag b (startDrag a s)) = getSelectionBetween a b /\
  handleDrag b (endDrag (handleDrag b (startDrag a s))) = endDrag (handleDrag b (startDrag a s)).
Proof.
  intros Ha. apply String.eqb_neq in Ha. unfold handleDrag at 1 2. cbn [startDrag isDragging dragStart set_selection].
  rewrite Ha. split; reflexivity.
Qed.

Lemma pasteSelection_offset s clip c r cd tc tr k :
  (0 <= c)%Z -> (0 <= r)%Z -> (0 <= tc)%Z -> (0 <= tr)%Z ->
  clipboard s = Some clip -> selectedCell s = Some (cell_id tc tr) ->
  clip_data clip = Some [(cell_id c r, cd)] -> (List.length (selectedCells s) <= 1)%nat ->
  obj_get k (cells (pasteSelection s)) =
  if String.eqb k (indexToColumnLetter c ++ print_Z (tc - c) ++ print_Z tr)
  then Some (copy_of cd) else obj_get k (cells s).
Proof.
  intros Hc Hr Htc Htr Hcl Hs Hd Hl. unfold pasteSelection. cbv zeta.
  change (clipboard (saveState s)) with (clipboard s).
  change (selectedCell (saveState s)) with (selectedCell s).
  change (selectedCells (saveState s)) with (selectedCells s).
  change (cells (saveState s)) with (cells s).
  rewrite Hcl, Hs, Hd.
  assert (Hne : String.eqb (cell_id tc tr) "" = false).
  { apply string_nonempty. unfold cell_id. rewrite chars_app.
    destruct (indexToColumnLetter_spec tc Htc) as [_ [_ H]].
    destruct (chars (indexToColumnLetter tc)); [contradiction|discriminate]. }
  rewrite Hne.
  replace (1 <? List.length (selectedCells s)) with false by (symmetry; apply Nat.ltb_ge; exact Hl).
  cbn [List.length Nat.eqb andb map fst].
  pose proof (calculatePasteOffset_ids (c, r) [] tc tr) as Ho. cbn [map fst snd fold_left] in Ho.
  rewrite Ho by (repeat constructor; cbn; lia).
  cbn [map]. rewrite (cell_id_parse c r Hc Hr). cbn [option_map all_some obind fold_left cells set_cells].
  rewrite obj_get_set. replace (r + (tr - r))%Z with tr by lia. reflexivity.
Qed.

Lemma chars_app_str a b : chars (a ++ b) = (chars a ++ chars b)%list.
Proof. induction a as [|c a IH]; [reflexivity|]. cbn. unfold chars in IH. rewrite IH. reflexivity. Qed.

Lemma upper_fixed_app l1 l2 :
  upper_chars l1 = Some l1 -> upper_chars l2 = Some l2 -> upper_chars (l1 ++ l2)%list = Some (l1 ++ l2)%list.
Proof.
  intros H1 H2. induction l1 as [|c t IH]; [exact H2|].
  cbn [upper_chars] in H1. destruct (upper_chars t) as [t'|] eqn:Et; [|discriminate H1].
  cbn [app upper_chars].
  ascii_cases c; cbn in H1 |- *; try discriminate H1; injection H1 as E;
    subst t'; rewrite IH by reflexivity; reflexivity.
Qed.

Lemma substring_prefix p r t :
  substring (String.length p) (String.length r) (p ++ r ++ t) = r.
Proof.
  induction p as [|a p IH]; cbn [String.length append substring].
  - induction r as [|b r IHr]; [destruct t; reflexivity|]. cbn. rewrite IHr. reflexivity.
  - exact IH.
Qed.

Lemma length_append_str a b : String.length (a ++ b) = String.length a + String.length b.
Proof. induction a as [|c a IH]; cbn; [reflexivity|]. rewrite IH. reflexivity. Qed.

Lemma slice_call p r : slice_to_last (p ++ r ++ ")") (String.length p) = r.
Proof.
  unfold slice_to_last. rewrite !length_append_str. cbn [String.length].
  destruct (Nat.ltb_spec (String.length p) (String.length p + (String.length r + 1) - 1)).
  - replace (String.length p + (String.length r + 1) - 1 - String.length p) with (String.length r) by lia.
    apply substring_prefix.
  - destruct r; [reflexivity|cbn [String.length] in *; lia].
Qed.

Lemma fold_add_ge (l : list Z) b : Forall (fun z => 0 <= z)%Z l -> (b <= fold_left Z.add l b)%Z.
Proof.
  revert b. induction l as [|x l IH]; intros b H; cbn; [lia|].
  inversion H; subst. specialize (IH (b + x)%Z ltac:(assumption)). lia.
Qed.

Lemma fold_add_mem (l : list Z) b z : Forall (fun z => 0 <= z)%Z l -> (0 <= b)%Z -> In z l -> (z <= fold_left Z.add l b)%Z.
Proof.
  revert b. induction l as [|x l IH]; intros b H Hb Hz; [destruct Hz|].
  inversion H; subst. cbn. destruct Hz as [->|Hz].
  - pose proof (fold_add_ge l (b + z) ltac:(assumption)). lia.
  - apply IH; [assumption|lia|exact Hz].
Qed.

Lemma sum_print_Z (zs : list Z) a :
  (0 <= a)%Z -> Forall (fun z => 0 <= z)%Z zs -> (fold_left Z.add zs a <= max_exact)%Z ->
  fold_left (fun acc v => js_add acc (Number v)) (map print_Z zs) (JNum a) = JNum (fold_left Z.add zs a).
Proof.
  revert a. induction zs as [|z zs IH]; intros a Ha Hz Hs; [reflexivity|].
  inversion Hz as [|? ? Hz0 Hzs]; subst.
  pose proof (fold_add_ge zs (a + z)%Z Hzs). cbn [map fold_left] in Hs |- *.
  rewrite Number_print_Z by (unfold max_exact in *; lia). rewrite js_add_num, exact_in by (unfold max_exact in *; lia).
  apply IH; [lia|exact Hzs|exact Hs].
Qed.

Lemma numeric_print_Z (zs : list Z) :
  Forall (fun z => 0 <= z <= max_exact)%Z zs -> numeric_values (map print_Z zs) = map print_Z zs.
Proof.
  induction zs as [|z zs IH]; intros H; [reflexivity|].
  inversion H as [|? ? Hz Hzs]; subst. unfold numeric_values in *. cbn [map filter].
  rewrite Number_print_Z by lia. cbn [isNaN negb]. rewrite IH by exact Hzs. reflexivity.
Qed.

Lemma sum_range rs ids g (zv : string -> Z) :
  upper_chars (chars rs) = Some (chars rs) -> parseRange rs = Some ids ->
  (forall id, In id ids -> g id = print_Z (zv id) /\ (0 <= zv id)%Z) ->
  (fold_left Z.add (map zv ids) 0%Z <= max_exact)%Z ->
  evaluateFormula ("=SUM(" ++ rs ++ ")") g = Some (print_Z (fold_left Z.add (map zv ids) 0%Z)).
Proof.
  intros Hu Hr Hg Hs. destruct (eq_formula_parts ("SUM(" ++ rs ++ ")")) as [S1 T1].
  unfold evaluateFormula. change ("=SUM(" ++ rs ++ ")") with ("=" ++ ("SUM(" ++ rs ++ ")")).
  rewrite S1, T1. cbn [negb].
  assert (Hup : toUpperCase ("SUM(" ++ rs ++ ")") = Some ("SUM(" ++ rs ++ ")")).
  { unfold toUpperCase. rewrite !chars_app_str.
    rewrite (upper_fixed_app (chars "SUM(") (chars rs ++ chars ")")%list) by
      (reflexivity || (apply upper_fixed_app; [exact Hu|reflexivity])).
    cbn [option_map]. rewrite <- !chars_app_str. unfold of_chars, chars. rewrite string_of_list_ascii_of_string.
    reflexivity. }
  rewrite Hup. cbn [obind].
  replace (startsWith ("SUM(" ++ rs ++ ")") "SUM(") with true
    by (unfold startsWith; cbn; repeat (destruct (ascii_dec _ _); [|congruence]); destruct (rs ++ ")"); reflexivity).
  rewrite (slice_call "SUM(" rs : slice_to_last ("SUM(" ++ rs ++ ")") 4 = rs), Hr. cbn [obind].
  assert (Hz : Forall (fun z => 0 <= z)%Z (map zv ids)).
  { apply Forall_forall. intros z Hz. apply in_map_iff in Hz as [id [<- Hid]]. apply (Hg id Hid). }
  assert (Hm : map g ids = map print_Z (map zv ids)).
  { rewrite map_map. apply map_ext_in. intros id Hid. apply (Hg id Hid). }
  assert (Hb : Forall (fun z => 0 <= z <= max_exact)%Z (map zv ids)).
  { apply Forall_forall. intros z Hzi. split; [rewrite Forall_forall in Hz; exact (Hz z Hzi)|].
    pose proof (fold_add_mem _ 0%Z z Hz ltac:(lia) Hzi). lia. }
  rewrite Hm, numeric_print_Z by exact Hb. unfold sum_values.
  rewrite sum_print_Z by (lia || exact Hz || exact Hs). reflexivity.
Qed.

(** ** Further properties of the code *)

(** X1: [indexToColumnLetter] and [columnLetterToIndex] are inverse on
    column indices: converting a non-negative index to its letters and
    back gives the index. *)
Theorem columnLetterToIndex_indexToColumnLetter i :
  (0 <= i)%Z -> columnLetterToIndex (indexToColumnLetter i) = i.
Proof. exact (col_round_trip i). Qed.

(** X2: [parseCellId] of an id built like [createCellId] from a
    non-negative column and row gives back the row and the column
    letters. *)
Theorem parseCellId_createCellId c r :
  (0 <= c)%Z -> (0 <= r)%Z -> parseCellId (cell_id c r) = Some (r, indexToColumnLetter c).
Proof. exact (cell_id_parse c r). Qed.

(** X3: the selection [getSelectionBetween] builds between two cell ids
    does not depend on the order of the corners, holds exactly the cells
    of the rectangle they span, each once, and has width times height
    elements. *)
Theorem getSelectionBetween_rect c1 r1 c2 r2 :
  (0 <= c1)%Z -> (0 <= r1)%Z -> (0 <= c2)%Z -> (0 <= r2)%Z ->
  let sel := getSelectionBetween (cell_id c1 r1) (cell_id c2 r2) in
  sel = getSelectionBetween (cell_id c2 r2) (cell_id c1 r1) /\
  (forall x, In x sel <-> exists c r, x = cell_id c r /\
       (Z.min c1 c2 <= c <= Z.max c1 c2)%Z /\ (Z.min r1 r2 <= r <= Z.max r1 r2)%Z) /\
  NoDup sel /\
  List.length sel = Z.to_nat ((Z.abs (c1 - c2) + 1) * (Z.abs (r1 - r2) + 1)).
Proof.
  intros H1 H2 H3 H4 sel.
  assert (E : sel = flat_map (fun r => map (fun c => cell_id c r)
                                         (zrange (Z.min c1 c2) (Z.max c1 c2)))
                             (zrange (Z.min r1 r2) (Z.max r1 r2)))
    by (apply selection_rect_eq; assumption).
  split; [|split; [|split]].
  - unfold sel, getSelectionBetween. rewrite (Z.min_comm (columnLetterToIndex _)),
      (Z.max_comm (columnLetterToIndex _)), (Z.min_comm (match_row _)), (Z.max_comm (match_row _)).
    reflexivity.
  - intros x. rewrite E, in_rect. split.
    + intros [c [r [-> [Hc Hr]]]]. apply in_zrange in Hr, Hc. exists c, r. auto.
    + intros [c [r [-> [Hc Hr]]]]. exists c, r.
      split; [reflexivity|split; apply in_zrange; assumption].
  - rewrite E. apply NoDup_rect; [|apply NoDup_zrange|apply NoDup_zrange].
    intros c r c' r' Hc Hr Hc' Hr'. apply in_zrange in Hc, Hr, Hc', Hr'.
    apply cell_id_inj; lia.
  - rewrite E. rewrite (flat_map_constant_length (c := Z.to_nat (Z.abs (c1 - c2) + 1))).
    + rewrite length_zrange. rewrite <- Z2Nat.inj_mul by lia. f_equal. lia.
    + intros r _. rewrite length_map, length_zrange. f_equal. lia.
Qed.

(** X4: on a selection dragged between two cell ids, [getTopLeftCell]
    and [getBottomRightCell] give the cells at the smallest and at the
    largest column and row of the two corners. *)
Theorem selection_top_left_bottom_right c1 r1 c2 r2 :
  (0 <= c1)%Z -> (0 <= r1)%Z -> (0 <= c2)%Z -> (0 <= r2)%Z ->
  getTopLeftCell (getSelectionBetween (cell_id c1 r1) (cell_id c2 r2)) = cell_id (Z.min c1 c2) (Z.min r1 r2) /\
  getBottomRightCell (getSelectionBetween (cell_id c1 r1) (cell_id c2 r2)) = cell_id (Z.max c1 c2) (Z.max r1 r2).
Proof. exact (selection_corners c1 r1 c2 r2). Qed.

(** X5: [parseReference] reads back a reference written with a
    one-letter column, an optional [$] before the column and before the
    row, and a row from 0 to [2^53] (where [parseInt] is exact): the
    column index, the row, both [$] flags and the text itself. *)
Theorem parseReference_encodeAddress c r ca ra :
  (0 <= c <= 25)%Z -> (0 <= r <= max_exact)%Z ->
  parseReference (encodeAddress c r ca ra) =
  Some {| colIndex := c; row := r; colAbsolute := ca; rowAbsolute := ra;
          original := encodeAddress c r ca ra |}.
Proof. intros Hc Hr. exact (parseReference_encode_single c r ca ra Hc ltac:(lia)). Qed.

(** X6: [parseRange] of two such references joined by [:] lists the
    cells column by column, from the first reference's column and row to
    the second's; when the second lies left of or above the first the
    list is empty.  The rows are at most [2^53], the second below it, so
    that [parseInt] and the [row++] loop stay exact. *)
Theorem parseRange_two_refs c1 r1 ca1 ra1 c2 r2 ca2 ra2 :
  (0 <= c1 <= 25)%Z -> (0 <= r1 <= max_exact)%Z -> (0 <= c2 <= 25)%Z -> (0 <= r2 < max_exact)%Z ->
  parseRange (encodeAddress c1 r1 ca1 ra1 ++ ":" ++ encodeAddress c2 r2 ca2 ra2) =
  Some (flat_map (fun col => map (fun r => cell_id col r) (zrange r1 r2)) (zrange c1 c2)).
Proof.
  intros H1 H2 H3 H4. exact (parseRange_enc c1 r1 ca1 ra1 c2 r2 ca2 ra2 H1 ltac:(lia) H3 ltac:(lia)).
Qed.

(** X7: after [updateCell id data], the cell [id] is its previous
    content (an empty cell when it had none) with the given fields
    replaced, and every other cell is unchanged. *)
Theorem updateCell_lookup id d s k :
  obj_get k (cells (updateCell id d s)) =
  if String.eqb k id then Some (merge_cell (cell_or_empty id (cells s)) d) else obj_get k (cells s).
Proof. exact (updateCell_get id d s k). Qed.

(** X8: with a non-empty selection, [cutSelection] turns every selected
    cell into an empty cell and leaves the other cells unchanged. *)
Theorem cutSelection_clears_selection s k :
  selectedCells s <> [] ->
  obj_get k (cells (cutSelection s)) =
  if existsb (String.eqb k) (selectedCells s) then Some createEmptyCell else obj_get k (cells s).
Proof. exact (cutSelection_get s k). Qed.

(** X9: [pasteCells] only changes cells whose id is that of a cell of
    the grid (column below [cols], row from 1 to [rows]). *)
Theorem pasteCells_only_in_grid t s k :
  obj_get k (cells (pasteCells t s)) <> obj_get k (cells s) ->
  exists c r, k = cell_id c r /\ (0 <= c < cols s)%Z /\ (1 <= r <= rows s)%Z.
Proof. exact (pasteCells_frame t s k). Qed.

(** X10: after a confirmed [clearSpreadsheet], every cell of the grid is
    an empty cell and no other cell exists. *)
Theorem clearSpreadsheet_empty_grid s :
  (forall c r, (0 <= c < cols s)%Z -> (1 <= r <= rows s)%Z ->
     obj_get (cell_id c r) (cells (clearSpreadsheet true s)) = Some createEmptyCell) /\
  (forall k, (forall c r, (0 <= c < cols s)%Z -> (1 <= r <= rows s)%Z -> k <> cell_id c r) ->
     obj_get k (cells (clearSpreadsheet true s)) = None).
Proof.
  split.
  - intros c r Hc Hr. rewrite clearSpreadsheet_get.
    replace (existsb _ _) with true; [reflexivity|]. symmetry. apply existsb_eqb_In, in_grid.
    exists c, r. split; [reflexivity|split; apply in_zrange; lia].
  - intros k Hk. rewrite clearSpreadsheet_get.
    destruct (existsb (String.eqb k) _) eqn:E; [|reflexivity].
    apply existsb_eqb_In, in_grid in E as [c [r [-> [Hc Hr]]]]. apply in_zrange in Hc, Hr.
    exfalso. apply (Hk c r); [lia|lia|reflexivity].
Qed.

(** X11: when the clipboard holds the data of a single cell and several
    cells are selected, [pasteSelection] writes a copy of that cell to
    every selected cell and leaves the others unchanged. *)
Theorem pasteSelection_single_to_many s clip target id0 cd k :
  clipboard s = Some clip -> selectedCell s = Some target -> target <> "" ->
  clip_data clip = Some [(id0, cd)] -> (1 < List.length (selectedCells s))%nat ->
  obj_get k (cells (pasteSelection s)) =
  if existsb (String.eqb k) (selectedCells s) then Some (copy_of cd) else obj_get k (cells s).
Proof. exact (pasteSelection_fill s clip target id0 cd k). Qed.

(** X12: on well-formed cell ids, [calculatePasteOffset] gives the
    target's row and column minus the smallest row and the smallest
    column of the source ids. *)
Theorem calculatePasteOffset_min (p0 : Z * Z) (ps : list (Z * Z)) tc tr :
  Forall (fun p => 0 <= fst p /\ 0 <= snd p)%Z (p0 :: ps) -> (0 <= tc)%Z -> (0 <= tr)%Z ->
  calculatePasteOffset (map (fun p => cell_id (fst p) (snd p)) (p0 :: ps)) (cell_id tc tr) =
  Some (tr - fold_left Z.min (map snd ps) (snd p0), tc - fold_left Z.min (map fst ps) (fst p0))%Z.
Proof. exact (calculatePasteOffset_ids p0 ps tc tr). Qed.

(** X13: when the clipboard holds one cell and at most one cell is
    selected, [pasteSelection] writes the copy under the key made of the
    source's column letters followed by the decimal text of the column
    offset and then of the target row (for instance A1 pasted at B2 is
    written to A12), and changes nothing else. *)
Theorem pasteSelection_offset_key s clip c r cd tc tr k :
  (0 <= c)%Z -> (0 <= r)%Z -> (0 <= tc)%Z -> (0 <= tr)%Z ->
  clipboard s = Some clip -> selectedCell s = Some (cell_id tc tr) ->
  clip_data clip = Some [(cell_id c r, cd)] -> (List.length (selectedCells s) <= 1)%nat ->
  obj_get k (cells (pasteSelection s)) =
  if String.eqb k (indexToColumnLetter c ++ print_Z (tc - c) ++ print_Z tr)
  then Some (copy_of cd) else obj_get k (cells s).
Proof. exact (pasteSelection_offset s clip c r cd tc tr k). Qed.

(** X14: after two edits, the second not [pasteSelection], [undo]
    restores the content before both edits, and [redo] then restores
    the content after the first edit only. *)
Theorem undo_redo_after_two_edits e1 e2 s :
  is_edit e1 = true -> is_edit e2 = true -> e2 <> PasteSelection ->
  snapshot (undo (step e2 (step e1 s))) = snapshot s /\
  snapshot (redo (undo (step e2 (step e1 s)))) = snapshot (step e1 s).
Proof. exact (undo_two_edits e1 e2 s). Qed.

(** X15: from the initial state, [undo] right after any single event
    changes nothing. *)
Theorem undo_after_first_event op : undo (step op initial_state) = step op initial_state.
Proof. exact (undo_first_step op). Qed.

(** X16: a CSV line written like a row of [exportToCSV] (values quoted
    and escaped by [formattedValue], joined by commas) is split by the
    line parser of [importFromCSV] into exactly the original values. *)
Theorem csv_row_round_trip vs :
  vs <> [] -> csv_fields (chars (join "," (map formatValue vs))) [] [] false = vs.
Proof. intros H. exact (csv_line vs [] H). Qed.

(** X17: importing the text [exportToCSV] writes for a sheet gives every
    cell (column from 0, row from 1) the value it had, when no value
    holds a line feed, starts with [=], or is blank without being
    empty. *)
Theorem exportToCSV_importFromCSV u s c r :
  Forall (fun kv => csv_value_ok (value (snd kv))) (cells s) -> (0 <= c)%Z -> (1 <= r)%Z ->
  getCellValue (cells (run [ImportFromCSV; ImportLoaded (exportToCSV_content (cells s)); ImportEvaluate u] s))
               (cell_id c r) =
  getCellValue (cells s) (cell_id c r).
Proof. exact (csv_reimport u s c r). Qed.

(** X18: [evaluateFormula] ignores the case of a formula whose upper-case
    form starts with one of its function names. *)
Theorem evaluateFormula_upper_case f f' g :
  toUpperCase f = Some f' ->
  existsb (startsWith f') formula_prefixes = true ->
  evaluateFormula ("=" ++ f) g = evaluateFormula ("=" ++ f') g.
Proof. exact (formula_case_insensitive f f' g). Qed.

(** X19: dragging from a cell to another selects [getSelectionBetween]
    of the two, and once [endDrag] ran, a later [handleDrag] changes
    nothing. *)
Theorem drag_selection a b s :
  a <> "" ->
  selectedCells (handleDrag b (startDrag a s)) = getSelectionBetween a b /\
  handleDrag b (endDrag (handleDrag b (startDrag a s))) = endDrag (handleDrag b (startDrag a s)).
Proof. exact (drag_select a b s). Qed.

(** X20: [=SUM(range)] over a range whose cells hold the decimal text of
    non-negative integers gives the decimal text of their sum, when the
    range text is upper case and the sum is at most [2^53]. *)
Theorem evaluateFormula_sum_integers rs ids g (zv : string -> Z) :
  upper_chars (chars rs) = Some (chars rs) -> parseRange rs = Some ids ->
  (forall id, In id ids -> g id = print_Z (zv id) /\ (0 <= zv id)%Z) ->
  (fold_left Z.add (map zv ids) 0%Z <= max_exact)%Z ->
  evaluateFormula ("=SUM(" ++ rs ++ ")") g = Some (print_Z (fold_left Z.add (map zv ids) 0%Z)).
Proof. exact (sum_range rs ids g zv). Qed.

(** *** Instances of the further properties *)

Lemma columnLetterToIndex_indexToColumnLetter_witness :
  columnLetterToIndex (indexToColumnLetter 730) = 730%Z.
Proof. apply columnLetterToIndex_indexToColumnLetter. lia. Defined.

Lemma parseCellId_createCellId_witness : parseCellId (cell_id 27 12) = Some (12%Z, "AB").
Proof. rewrite parseCellId_createCellId by lia. reflexivity. Defined.

Lemma getSelectionBetween_rect_witness :
  List.length (getSelectionBetween (cell_id 2 3) (cell_id 0 1)) = 9%nat.
Proof.
  destruct (getSelectionBetween_rect 2 3 0 1 ltac:(lia) ltac:(lia) ltac:(lia) ltac:(lia))
    as [_ [_ [_ L]]].
  rewrite L. reflexivity.
Defined.

Lemma selection_top_left_bottom_right_witness :
  getTopLeftCell (getSelectionBetween (cell_id 2 1) (cell_id 0 3)) = "A1".
Proof.
  rewrite (proj1 (selection_top_left_bottom_right 2 1 0 3 ltac:(lia) ltac:(lia) ltac:(lia) ltac:(lia))).
  reflexivity.
Defined.

Lemma parseReference_encodeAddress_witness :
  parseReference (encodeAddress 1 12 true false) =
  Some {| colIndex := 1; row := 12; colAbsolute := true; rowAbsolute := false;
          original := encodeAddress 1 12 true false |}.
Proof. apply parseReference_encodeAddress; unfold max_exact; lia. Defined.

Lemma parseRange_two_refs_witness :
  parseRange (encodeAddress 0 1 false true ++ ":" ++ encodeAddress 1 2 true false) =
  Some ["A1"; "A2"; "B1"; "B2"].
Proof. rewrite parseRange_two_refs by (unfold max_exact; lia). reflexivity. Defined.

Lemma cutSelection_clears_selection_witness :
  obj_get "A1" (cells (cutSelection
    {| cells := [("A1", {| value := "x"; formula := ""; style := default_style |})];
       selectedCell := Some "A1"; selectedCells := ["A1"];
       rows := 100; cols := 26; isDragging := false; dragStart := None; dragStartCell := None;
       clipboard := None; history := []; historyIndex := -1 |})) = Some createEmptyCell.
Proof. rewrite cutSelection_clears_selection by discriminate. reflexivity. Defined.

Lemma pasteCells_only_in_grid_witness :
  exists c r, "A3" = cell_id c r /\ (0 <= c < 26)%Z /\ (1 <= r <= 100)%Z.
Proof.
  apply (pasteCells_only_in_grid "A3"
    {| cells := []; selectedCell := None; selectedCells := [];
       rows := 100; cols := 26; isDragging := false; dragStart := None; dragStartCell := None;
       clipboard := Some {| clip_type := None; clip_data := None;
                            clip_cells := [("A1", createEmptyCell)];
                            topLeft := "A1"; bottomRight := "A1" |};
       history := []; historyIndex := -1 |} "A3").
  vm_compute. discriminate.
Defined.

Lemma clearSpreadsheet_empty_grid_witness :
  obj_get (cell_id 25 100) (cells (clearSpreadsheet true initial_state)) = Some createEmptyCell /\
  obj_get "AA1" (cells (clearSpreadsheet true initial_state)) = None.
Proof.
  split.
  - apply (proj1 (clearSpreadsheet_empty_grid initial_state) 25%Z 100%Z);
    unfold initial_state, DEFAULT_COLS, DEFAULT_ROWS; cbn; lia.
  - apply (proj2 (clearSpreadsheet_empty_grid initial_state)).
    intros c r Hc Hr E. unfold initial_state, DEFAULT_COLS, DEFAULT_ROWS in Hc, Hr; cbn in Hc, Hr.
    assert (C := f_equal (fun k => columnLetterToIndex (match_col k)) E). cbn beta in C.
    rewrite match_col_cell_id, col_round_trip in C by lia. vm_compute in C. lia.
Defined.

Lemma pasteSelection_single_to_many_witness :
  obj_get "C2" (cells (pasteSelection
    {| cells := []; selectedCell := Some "B2"; selectedCells := ["B2"; "C2"];
       rows := 100; cols := 26; isDragging := false; dragStart := None; dragStartCell := None;
       clipboard := Some {| clip_type := Some "copy"; clip_data := Some [("A1", createEmptyCell)];
                            clip_cells := []; topLeft := "A1"; bottomRight := "A1" |};
       history := []; historyIndex := -1 |})) = Some (copy_of createEmptyCell).
Proof.
  rewrite (pasteSelection_single_to_many _
             {| clip_type := Some "copy"; clip_data := Some [("A1", createEmptyCell)];
                clip_cells := []; topLeft := "A1"; bottomRight := "A1" |} "B2" "A1" createEmptyCell);
    [reflexivity|reflexivity|reflexivity|discriminate|reflexivity|cbn; lia].
Defined.

Lemma calculatePasteOffset_min_witness :
  calculatePasteOffset [cell_id 1 2; cell_id 0 3] (cell_id 4 5) = Some (3%Z, 4%Z).
Proof.
  apply (calculatePasteOffset_min (1, 2)%Z [(0, 3)%Z] 4 5); [|lia|lia].
  repeat constructor; cbn; lia.
Defined.

Lemma pasteSelection_offset_key_witness :
  obj_get "A12" (cells (pasteSelection
    {| cells := []; selectedCell := Some "B2"; selectedCells := ["B2"];
       rows := 100; cols := 26; isDragging := false; dragStart := None; dragStartCell := None;
       clipboard := Some {| clip_type := Some "copy"; clip_data := Some [("A1", createEmptyCell)];
                            clip_cells := []; topLeft := "A1"; bottomRight := "A1" |};
       history := []; historyIndex := -1 |})) = Some (copy_of createEmptyCell).
Proof.
  rewrite (pasteSelection_offset_key _
             {| clip_type := Some "copy"; clip_data := Some [("A1", createEmptyCell)];
                clip_cells := []; topLeft := "A1"; bottomRight := "A1" |} 0 1 createEmptyCell 1 2);
    [reflexivity|lia|lia|lia|lia|reflexivity|reflexivity|reflexivity|cbn; lia].
Defined.

Lemma undo_redo_after_two_edits_witness :
  snapshot (undo (step (UpdateCell "A1" {| p_value := Some "1"; p_formula := None; p_style := None |})
                        (step AddRow initial_state))) = snapshot initial_state.
Proof. apply undo_redo_after_two_edits; [reflexivity|reflexivity|discriminate]. Defined.

Lemma csv_row_round_trip_witness :
  csv_fields (chars (join "," (map formatValue ["a,b"; String dquote "q"; ""]))) [] [] false =
  ["a,b"; String dquote "q"; ""].
Proof. apply csv_row_round_trip. discriminate. Defined.

Lemma exportToCSV_importFromCSV_witness :
  getCellValue (cells (run [ImportFromCSV; ImportLoaded (exportToCSV_content [("B2", {| value := "x,y"; formula := ""; style := default_style |})]);
                            ImportEvaluate (fun _ => "")]
    {| cells := [("B2", {| value := "x,y"; formula := ""; style := default_style |})];
       selectedCell := None; selectedCells := [];
       rows := 100; cols := 26; isDragging := false; dragStart := None; dragStartCell := None;
       clipboard := None; history := []; historyIndex := -1 |})) (cell_id 1 2) = "x,y".
Proof.
  etransitivity; [apply (exportToCSV_importFromCSV (fun _ => "")
    {| cells := [("B2", {| value := "x,y"; formula := ""; style := default_style |})];
       selectedCell := None; selectedCells := [];
       rows := 100; cols := 26; isDragging := false; dragStart := None; dragStartCell := None;
       clipboard := None; history := []; historyIndex := -1 |} 1 2)|].
  - constructor; [|constructor]. cbn. unfold csv_value_ok, no_nl.
    split; [reflexivity|split; [reflexivity|intros H; discriminate H]].
  - lia.
  - lia.
  - reflexivity.
Defined.

Lemma evaluateFormula_upper_case_witness :
  evaluateFormula "=sum(a1:a2)" (fun _ => "2") = evaluateFormula "=SUM(A1:A2)" (fun _ => "2").
Proof. apply (evaluateFormula_upper_case "sum(a1:a2)" "SUM(A1:A2)"); reflexivity. Defined.

Lemma drag_selection_witness :
  selectedCells (handleDrag "B2" (startDrag "A1" initial_state)) = getSelectionBetween "A1" "B2".
Proof. apply drag_selection. discriminate. Defined.

Lemma evaluateFormula_sum_integers_witness :
  evaluateFormula "=SUM(A1:A2)" (fun id => if String.eqb id "A1" then "30" else "12") = Some "42".
Proof.
  apply (evaluateFormula_sum_integers "A1:A2" ["A1"; "A2"] _
           (fun id => if String.eqb id "A1" then 30%Z else 12%Z));
    [reflexivity|reflexivity| |vm_compute; discriminate].
  intros id [<-|[<-|[]]]; split; [reflexivity|cbn; lia|reflexivity|cbn; lia].
Defined.
